(** * Four-terminal controlled sources of the netlist analog library

    A shallow embedding of [src/lib/netlist/analog/nld_fourterm.cpp]:
    the voltage-controlled current source VCCS, its current-limited variant
    LVCCS, the current-controlled current source CCCS and the
    voltage-controlled voltage source VCVS.

    The devices compute on [nl_double].  The embedding is written once over
    an interface [NlDouble] of the arithmetic the source uses, and read at
    two carriers: IEEE binary64 (Rocq's primitive floats, with [std::tanh]
    supplied by the C library and therefore a parameter) and the real
    numbers, where the analytic properties of the clamp are stated. *)

From Stdlib Require Import Reals Lra Floats String List Bool Arith Lia.
Import ListNotations.

#[local] Set Warnings "-inexact-float".

(** ** The arithmetic of [nl_double] *)

Class NlDouble (D : Type) : Type := {
  nl_0_0 : D;                      (* NL_FCONST(0.0) *)
  nl_1_0 : D;                      (* NL_FCONST(1.0) *)
  nl_0_5 : D;                      (* 0.5 *)
  nl_0_2 : D;                      (* 0.2 *)
  nl_add : D -> D -> D;
  nl_sub : D -> D -> D;
  nl_mul : D -> D -> D;
  nl_div : D -> D -> D;
  nl_neg : D -> D;
  nl_abs : D -> D;                 (* std::abs *)
  nl_tanh : D -> D;                (* std::tanh *)
  nl_gt : D -> D -> bool           (* operator> *)
}.

Declare Scope nl_scope.
Delimit Scope nl_scope with nl.
Infix "+" := nl_add : nl_scope.
Infix "-" := nl_sub : nl_scope.
Infix "*" := nl_mul : nl_scope.
Infix "/" := nl_div : nl_scope.
Notation "- x" := (nl_neg x) : nl_scope.
Infix ">?" := nl_gt (at level 70, no associativity) : nl_scope.

(** IEEE binary64, the [double] behind [nl_double]. *)
Definition binary64 (c_tanh : float -> float) : NlDouble float := {|
  nl_0_0 := 0%float;
  nl_1_0 := 1%float;
  nl_0_5 := 0.5%float;
  nl_0_2 := 0.2%float;
  nl_add := PrimFloat.add;
  nl_sub := PrimFloat.sub;
  nl_mul := PrimFloat.mul;
  nl_div := PrimFloat.div;
  nl_neg := PrimFloat.opp;
  nl_abs := PrimFloat.abs;
  nl_tanh := c_tanh;
  nl_gt := fun x y => PrimFloat.ltb y x
|}.

(** The real numbers: [nl_double] without rounding, overflow or NaN.  A
    division by zero, which binary64 answers with an infinity or a NaN, is 0
    here. *)
Definition Rgtb (x y : R) : bool := if Rgt_dec x y then true else false.

#[export] Instance real_arith : NlDouble R := {|
  nl_0_0 := 0%R;
  nl_1_0 := 1%R;
  nl_0_5 := 0.5%R;
  nl_0_2 := 0.2%R;
  nl_add := Rplus;
  nl_sub := Rminus;
  nl_mul := Rmult;
  nl_div := Rdiv;
  nl_neg := Ropp;
  nl_abs := Rabs;
  nl_tanh := tanh;
  nl_gt := Rgtb
|}.

(** ** Terminals and nets *)

(** The terminals a four-terminal device owns, as the targets of the
    [m_otherterm] pointers. *)
Inductive term_id : Type :=
  IP | IN | OP | ON | OP1 | ON1 | OP2 | ON2.

Definition net_id : Type := nat.

Section Model.

Context {D : Type} {ops : NlDouble D}.
Local Open Scope nl_scope.

(** Modelled from the spec: [terminal.set(conductance[, voltageOffset[,
    current]])] writes a stamp.  [terminal_t::set] is declared outside
    [nld_fourterm.cpp]; a stamp records the arguments of the last call, one
    constructor per overload. *)
Inductive stamp : Type :=
| stamp_G (G : D)
| stamp_GO_GT (GO GT : D)
| stamp_GO_GT_I (GO GT I : D).

Record terminal_t : Type := {
  t_name : string;                  (* the name given to [enregister] *)
  m_net : net_id;                   (* the net the terminal belongs to *)
  m_otherterm : option term_id;     (* NULL is [None] *)
  m_stamp : option stamp            (* [None] until the first [set] *)
}.

Record net_t : Type := {
  isRailNet : bool;
  Q_Analog : D
}.

(** The nets of the netlist, by identifier. *)
Definition netlist : Type := net_id -> net_t.

(** [t.net()] *)
Definition net (nl : netlist) (t : terminal_t) : net_t := nl (m_net t).

Definition write_stamp (s : stamp) (t : terminal_t) : terminal_t :=
  {| t_name := t_name t; m_net := m_net t;
     m_otherterm := m_otherterm t; m_stamp := Some s |}.

(** [t.set(G)], [t.set(GO, GT)], [t.set(GO, GT, I)] *)
Definition set1 (G : D) : terminal_t -> terminal_t := write_stamp (stamp_G G).
Definition set2 (GO GT : D) : terminal_t -> terminal_t :=
  write_stamp (stamp_GO_GT GO GT).
Definition set3 (GO GT I : D) : terminal_t -> terminal_t :=
  write_stamp (stamp_GO_GT_I GO GT I).

(** [t.m_otherterm = &o] *)
Definition set_otherterm (o : term_id) (t : terminal_t) : terminal_t :=
  {| t_name := t_name t; m_net := m_net t;
     m_otherterm := Some o; m_stamp := m_stamp t |}.

(** Modelled from the spec: terminal registration at construction (name).
    [enregister] is declared outside [nld_fourterm.cpp]. *)
Definition enregister (name : string) (t : terminal_t) : terminal_t :=
  {| t_name := name; m_net := m_net t;
     m_otherterm := m_otherterm t; m_stamp := m_stamp t |}.

(** ** VCCS *)

Record VCCS : Type := {
  m_G : D;
  m_RI : D;
  m_gfac : D;
  m_IP : terminal_t;
  m_IN : terminal_t;
  m_OP : terminal_t;
  m_ON : terminal_t;
  m_OP1 : terminal_t;
  m_ON1 : terminal_t
}.

Definition with_G (v : D) (d : VCCS) : VCCS :=
  {| m_G := v; m_RI := m_RI d; m_gfac := m_gfac d;
     m_IP := m_IP d; m_IN := m_IN d; m_OP := m_OP d; m_ON := m_ON d;
     m_OP1 := m_OP1 d; m_ON1 := m_ON1 d |}.
Definition with_RI (v : D) (d : VCCS) : VCCS :=
  {| m_G := m_G d; m_RI := v; m_gfac := m_gfac d;
     m_IP := m_IP d; m_IN := m_IN d; m_OP := m_OP d; m_ON := m_ON d;
     m_OP1 := m_OP1 d; m_ON1 := m_ON1 d |}.
Definition with_gfac (v : D) (d : VCCS) : VCCS :=
  {| m_G := m_G d; m_RI := m_RI d; m_gfac := v;
     m_IP := m_IP d; m_IN := m_IN d; m_OP := m_OP d; m_ON := m_ON d;
     m_OP1 := m_OP1 d; m_ON1 := m_ON1 d |}.
Definition on_IP (f : terminal_t -> terminal_t) (d : VCCS) : VCCS :=
  {| m_G := m_G d; m_RI := m_RI d; m_gfac := m_gfac d;
     m_IP := f (m_IP d); m_IN := m_IN d; m_OP := m_OP d; m_ON := m_ON d;
     m_OP1 := m_OP1 d; m_ON1 := m_ON1 d |}.
Definition on_IN (f : terminal_t -> terminal_t) (d : VCCS) : VCCS :=
  {| m_G := m_G d; m_RI := m_RI d; m_gfac := m_gfac d;
     m_IP := m_IP d; m_IN := f (m_IN d); m_OP := m_OP d; m_ON := m_ON d;
     m_OP1 := m_OP1 d; m_ON1 := m_ON1 d |}.
Definition on_OP (f : terminal_t -> terminal_t) (d : VCCS) : VCCS :=
  {| m_G := m_G d; m_RI := m_RI d; m_gfac := m_gfac d;
     m_IP := m_IP d; m_IN := m_IN d; m_OP := f (m_OP d); m_ON := m_ON d;
     m_OP1 := m_OP1 d; m_ON1 := m_ON1 d |}.
Definition on_ON (f : terminal_t -> terminal_t) (d : VCCS) : VCCS :=
  {| m_G := m_G d; m_RI := m_RI d; m_gfac := m_gfac d;
     m_IP := m_IP d; m_IN := m_IN d; m_OP := m_OP d; m_ON := f (m_ON d);
     m_OP1 := m_OP1 d; m_ON1 := m_ON1 d |}.
Definition on_OP1 (f : terminal_t -> terminal_t) (d : VCCS) : VCCS :=
  {| m_G := m_G d; m_RI := m_RI d; m_gfac := m_gfac d;
     m_IP := m_IP d; m_IN := m_IN d; m_OP := m_OP d; m_ON := m_ON d;
     m_OP1 := f (m_OP1 d); m_ON1 := m_ON1 d |}.
Definition on_ON1 (f : terminal_t -> terminal_t) (d : VCCS) : VCCS :=
  {| m_G := m_G d; m_RI := m_RI d; m_gfac := m_gfac d;
     m_IP := m_IP d; m_IN := m_IN d; m_OP := m_OP d; m_ON := m_ON d;
     m_OP1 := m_OP1 d; m_ON1 := f (m_ON1 d) |}.

(** The setup the device registers with while it starts: the parameter
    values the netlist gives by name, and the terminal pairs declared by
    [connect_late], latest first. *)
Record setup_t : Type := {
  su_param : string -> option D;
  su_late : list (term_id * term_id)
}.

(** Modelled from the spec: parameter registration at construction (name,
    default value).  [register_param] is declared outside
    [nld_fourterm.cpp]; the parameter takes the value the netlist names for
    it and the default otherwise. *)
Definition register_param (su : setup_t) (name : string) (def : D) : D :=
  match su_param su name with
  | Some v => v
  | None => def
  end.

(** Modelled from the spec: [connect_late(terminalA, terminalB)] declares
    two terminals as a late-bound opposite pair once full topology is known.
    [connect_late] is declared outside [nld_fourterm.cpp]; the call records
    the pair, and binds nothing yet. *)
Definition connect_late (a b : term_id) (su : setup_t) : setup_t :=
  {| su_param := su_param su; su_late := (a, b) :: su_late su |}.

(** [NETLIB_NAME(VCCS)::start_internal(def_RI)] *)
Definition start_internal (def_RI : D) (su : setup_t) (d : VCCS)
  : VCCS * setup_t :=
  let d := with_G (register_param su "G" nl_1_0) d in
  let d := with_RI (register_param su "RI" def_RI) d in

  let d := on_IP (enregister "IP") d in
  let d := on_IN (enregister "IN") d in
  let d := on_OP (enregister "OP") d in
  let d := on_ON (enregister "ON") d in

  let d := on_OP1 (enregister "_OP1") d in
  let d := on_ON1 (enregister "_ON1") d in

  let d := on_IP (set_otherterm IN) d in
  let d := on_IN (set_otherterm IP) d in

  let d := on_OP (set_otherterm IP) d in
  let d := on_OP1 (set_otherterm IN) d in

  let d := on_ON (set_otherterm IP) d in
  let d := on_ON1 (set_otherterm IN) d in

  let su := connect_late OP OP1 su in
  let su := connect_late ON ON1 su in
  (d, su).

(** [NETLIB_RESET(VCCS)] *)
Definition VCCS_reset (d : VCCS) : VCCS :=
  let m_mult := m_G d * m_gfac d in
  let GI := nl_1_0 / m_RI d in

  let d := on_IP (set1 GI) d in
  let d := on_IN (set1 GI) d in

  let d := on_OP (set2 m_mult nl_0_0) d in
  let d := on_OP1 (set2 (- m_mult) nl_0_0) d in

  let d := on_ON (set2 (- m_mult) nl_0_0) d in
  let d := on_ON1 (set2 m_mult nl_0_0) d in
  d.

(** A call the device makes into the solver. *)
Inductive solver_call : Type :=
| schedule_solve (t : term_id).

(** [NETLIB_UPDATE(VCCS)]: the device is read only; the result is the
    sequence of [schedule_solve] calls made, in order. *)
Definition VCCS_update (nl : netlist) (d : VCCS) : list solver_call :=
  if negb (isRailNet (net nl (m_IP d))) then
    [schedule_solve IP]
  else if negb (isRailNet (net nl (m_IN d))) then
    [schedule_solve IN]
  else if negb (isRailNet (net nl (m_OP d))) then
    [schedule_solve OP]
  else if negb (isRailNet (net nl (m_ON d))) then
    [schedule_solve ON]
  else
    [].

(** ** LVCCS *)

Record LVCCS : Type := {
  lv_VCCS : VCCS;                   (* the VCCS base object *)
  m_cur_limit : D;
  m_vi : D
}.

Definition lv_on_VCCS (f : VCCS -> VCCS) (d : LVCCS) : LVCCS :=
  {| lv_VCCS := f (lv_VCCS d); m_cur_limit := m_cur_limit d; m_vi := m_vi d |}.
Definition with_vi (v : D) (d : LVCCS) : LVCCS :=
  {| lv_VCCS := lv_VCCS d; m_cur_limit := m_cur_limit d; m_vi := v |}.

(** [NETLIB_RESET(LVCCS)] *)
Definition LVCCS_reset (d : LVCCS) : LVCCS := lv_on_VCCS VCCS_reset d.

(** [NETLIB_UPDATE(LVCCS)] *)
Definition LVCCS_update (nl : netlist) (d : LVCCS) : list solver_call :=
  VCCS_update nl (lv_VCCS d).

(** [NETLIB_UPDATE_TERMINALS(LVCCS)] *)
Definition LVCCS_update_terminals (nl : netlist) (d : LVCCS) : LVCCS :=
  let m_mult := m_G (lv_VCCS d) * m_gfac (lv_VCCS d) in
  let vi := Q_Analog (net nl (m_IP (lv_VCCS d)))
            - Q_Analog (net nl (m_IN (lv_VCCS d))) in

  let d :=
    if nl_abs (m_mult / m_cur_limit d * vi) >? nl_0_5 then
      with_vi (m_vi d + nl_0_2 * nl_tanh ((vi - m_vi d) / nl_0_2)) d
    else
      with_vi vi d in

  let x := m_mult / m_cur_limit d * m_vi d in
  let X := nl_tanh x in

  let beta := m_mult * (nl_1_0 - X * X) in
  let I := m_cur_limit d * X - beta * m_vi d in

  let d := lv_on_VCCS (on_OP (set3 beta nl_0_0 I)) d in
  let d := lv_on_VCCS (on_OP1 (set2 (- beta) nl_0_0)) d in

  let d := lv_on_VCCS (on_ON (set3 (- beta) nl_0_0 (- I))) d in
  let d := lv_on_VCCS (on_ON1 (set2 beta nl_0_0)) d in
  d.

(** The voltage across the input pair, [V(IP) - V(IN)]. *)
Definition input_voltage (nl : netlist) (d : VCCS) : D :=
  Q_Analog (net nl (m_IP d)) - Q_Analog (net nl (m_IN d)).

(** The estimate [m_vi] an [update_terminals] call leaves behind. *)
Definition next_vi (nl : netlist) (d : LVCCS) : D :=
  let mult := m_G (lv_VCCS d) * m_gfac (lv_VCCS d) in
  let vi := input_voltage nl (lv_VCCS d) in
  if nl_abs (mult / m_cur_limit d * vi) >? nl_0_5
  then m_vi d + nl_0_2 * nl_tanh ((vi - m_vi d) / nl_0_2)
  else vi.

(** What a [set] leaves of a terminal: its name, net and opposite
    terminal. *)
Definition same_wiring (t t' : terminal_t) : Prop :=
  t_name t' = t_name t /\ m_net t' = m_net t /\
  m_otherterm t' = m_otherterm t.

(** ** CCCS *)

Record CCCS : Type := {
  cc_VCCS : VCCS                    (* the VCCS base object *)
}.

(** [NETLIB_RESET(CCCS)] *)
Definition CCCS_reset (d : CCCS) : CCCS :=
  {| cc_VCCS := VCCS_reset (cc_VCCS d) |}.

(** [NETLIB_UPDATE(CCCS)] *)
Definition CCCS_update (nl : netlist) (d : CCCS) : list solver_call :=
  VCCS_update nl (cc_VCCS d).

(** ** VCVS *)

Record VCVS : Type := {
  vv_VCCS : VCCS;                   (* the VCCS base object *)
  m_RO : D;
  m_OP2 : terminal_t;
  m_ON2 : terminal_t
}.

Definition vv_on_VCCS (f : VCCS -> VCCS) (d : VCVS) : VCVS :=
  {| vv_VCCS := f (vv_VCCS d); m_RO := m_RO d;
     m_OP2 := m_OP2 d; m_ON2 := m_ON2 d |}.
Definition on_OP2 (f : terminal_t -> terminal_t) (d : VCVS) : VCVS :=
  {| vv_VCCS := vv_VCCS d; m_RO := m_RO d;
     m_OP2 := f (m_OP2 d); m_ON2 := m_ON2 d |}.
Definition on_ON2 (f : terminal_t -> terminal_t) (d : VCVS) : VCVS :=
  {| vv_VCCS := vv_VCCS d; m_RO := m_RO d;
     m_OP2 := m_OP2 d; m_ON2 := f (m_ON2 d) |}.

(** [NETLIB_RESET(VCVS)] *)
Definition VCVS_reset (d : VCVS) : VCVS :=
  let d := vv_on_VCCS (with_gfac (nl_1_0 / m_RO d)) d in
  let d := vv_on_VCCS VCCS_reset d in

  let d := on_OP2 (set1 (nl_1_0 / m_RO d)) d in
  let d := on_ON2 (set1 (nl_1_0 / m_RO d)) d in
  d.

(** ** The four-terminal family *)

Inductive fourterm : Type :=
| dev_VCCS (d : VCCS)
| dev_LVCCS (d : LVCCS)
| dev_CCCS (d : CCCS)
| dev_VCVS (d : VCVS).

(** The VCCS base object every member of the family has. *)
Definition base (dv : fourterm) : VCCS :=
  match dv with
  | dev_VCCS d => d
  | dev_LVCCS d => lv_VCCS d
  | dev_CCCS d => cc_VCCS d
  | dev_VCVS d => vv_VCCS d
  end.

Definition on_base (f : VCCS -> VCCS) (dv : fourterm) : fourterm :=
  match dv with
  | dev_VCCS d => dev_VCCS (f d)
  | dev_LVCCS d => dev_LVCCS (lv_on_VCCS f d)
  | dev_CCCS d => dev_CCCS {| cc_VCCS := f (cc_VCCS d) |}
  | dev_VCVS d => dev_VCVS (vv_on_VCCS f d)
  end.

(** The virtual [reset()]. *)
Definition reset (dv : fourterm) : fourterm :=
  match dv with
  | dev_VCCS d => dev_VCCS (VCCS_reset d)
  | dev_LVCCS d => dev_LVCCS (LVCCS_reset d)
  | dev_CCCS d => dev_CCCS (CCCS_reset d)
  | dev_VCVS d => dev_VCVS (VCVS_reset d)
  end.

(** The virtual [update()]; VCVS does not override it and inherits the
    one of VCCS. *)
Definition update (nl : netlist) (dv : fourterm) : list solver_call :=
  match dv with
  | dev_VCCS d => VCCS_update nl d
  | dev_LVCCS d => LVCCS_update nl d
  | dev_CCCS d => CCCS_update nl d
  | dev_VCVS d => VCCS_update nl (vv_VCCS d)
  end.

(** The virtual [update_terminals()]; only LVCCS defines one in this
    file. *)
Definition update_terminals (nl : netlist) (dv : fourterm) : fourterm :=
  match dv with
  | dev_LVCCS d => dev_LVCCS (LVCCS_update_terminals nl d)
  | _ => dv
  end.

(** The terminal of a device behind a [term_id]; [OP2] and [ON2] exist on
    VCVS only. *)
Definition terminal (dv : fourterm) (t : term_id) : option terminal_t :=
  match t with
  | IP => Some (m_IP (base dv))
  | IN => Some (m_IN (base dv))
  | OP => Some (m_OP (base dv))
  | ON => Some (m_ON (base dv))
  | OP1 => Some (m_OP1 (base dv))
  | ON1 => Some (m_ON1 (base dv))
  | OP2 => match dv with dev_VCVS d => Some (m_OP2 d) | _ => None end
  | ON2 => match dv with dev_VCVS d => Some (m_ON2 d) | _ => None end
  end.

Definition on_terminal (t : term_id) (f : terminal_t -> terminal_t)
  (dv : fourterm) : fourterm :=
  match t with
  | IP => on_base (on_IP f) dv
  | IN => on_base (on_IN f) dv
  | OP => on_base (on_OP f) dv
  | ON => on_base (on_ON f) dv
  | OP1 => on_base (on_OP1 f) dv
  | ON1 => on_base (on_ON1 f) dv
  | OP2 => match dv with dev_VCVS d => dev_VCVS (on_OP2 f d) | _ => dv end
  | ON2 => match dv with dev_VCVS d => dev_VCVS (on_ON2 f d) | _ => dv end
  end.

(** The opposite terminal [t] names, when the device has [t]. *)
Definition otherterm (dv : fourterm) (t : term_id)
  : option (option term_id) :=
  option_map m_otherterm (terminal dv t).

(** [a] and [b] name each other as opposite terminal. *)
Definition cross_referenced (dv : fourterm) (a b : term_id) : Prop :=
  otherterm dv a = Some (Some b) /\ otherterm dv b = Some (Some a).

(** ** Lifecycle *)

(** A device from its construction on: the device, the setup it
    registered with and whether its topology has been finalized. *)
Record built : Type := {
  b_dev : fourterm;
  b_setup : setup_t;
  b_finalized : bool
}.

(** Construction: [start_internal] runs on the base object of the fresh
    device [this], against a setup that holds the netlist's parameters. *)
Definition construct (def_RI : D) (params : string -> option D)
  (this : fourterm) : built :=
  let '(b, su) :=
    start_internal def_RI {| su_param := params; su_late := [] |} (base this) in
  {| b_dev := on_base (fun _ => b) this; b_setup := su; b_finalized := false |}.

Definition bind_pair (p : term_id * term_id) (dv : fourterm) : fourterm :=
  on_terminal (snd p) (set_otherterm (fst p))
    (on_terminal (fst p) (set_otherterm (snd p)) dv).

(** Modelled from the spec: the finalize phase that binds opposite-terminal
    references, rejecting any device finalized twice.  The code that
    resolves the pairs declared by [connect_late] lies outside
    [nld_fourterm.cpp]. *)
Definition finalize (s : built) : option built :=
  if b_finalized s then None
  else Some {| b_dev := fold_right bind_pair (b_dev s) (su_late (b_setup s));
               b_setup := b_setup s;
               b_finalized := true |}.

(** What happens to a device after its construction. *)
Inductive event : Type :=
| ev_reset
| ev_update (nl : netlist)
| ev_update_terminals (nl : netlist)
| ev_finalize.

Definition is_finalize (e : event) : bool :=
  match e with ev_finalize => true | _ => false end.

Definition on_dev (f : fourterm -> fourterm) (s : built) : built :=
  {| b_dev := f (b_dev s); b_setup := b_setup s;
     b_finalized := b_finalized s |}.

Definition exec (e : event) (s : built) : option built :=
  match e with
  | ev_reset => Some (on_dev reset s)
  | ev_update nl => Some s
  | ev_update_terminals nl => Some (on_dev (update_terminals nl) s)
  | ev_finalize => finalize s
  end.

Fixpoint run (es : list event) (s : built) : option built :=
  match es with
  | [] => Some s
  | e :: es' =>
      match exec e s with
      | Some s' => run es' s'
      | None => None
      end
  end.

(** What holds of a device at every moment after its construction: the
    pairs declared late are those of [start_internal]; IP and IN name each
    other; the output terminals name the input pair until the topology is
    finalized, and their auxiliaries from then on. *)
Definition lifecycle_inv (s : built) : Prop :=
  su_late (b_setup s) = [(ON, ON1); (OP, OP1)] /\
  cross_referenced (b_dev s) IP IN /\
  if b_finalized s
  then cross_referenced (b_dev s) OP OP1 /\
       cross_referenced (b_dev s) ON ON1
  else otherterm (b_dev s) OP = Some (Some IP) /\
       otherterm (b_dev s) OP1 = Some (Some IN) /\
       otherterm (b_dev s) ON = Some (Some IP) /\
       otherterm (b_dev s) ON1 = Some (Some IN).

(** ** Requests to the solver *)

(** The first terminal, in the order IP, IN, OP, ON, whose net is not a
    rail net. *)
Definition first_non_rail (nl : netlist) (d : VCCS) : option term_id :=
  find (fun t => match t with
                 | IP => negb (isRailNet (net nl (m_IP d)))
                 | IN => negb (isRailNet (net nl (m_IN d)))
                 | OP => negb (isRailNet (net nl (m_OP d)))
                 | ON => negb (isRailNet (net nl (m_ON d)))
                 | _ => false
                 end)
       [IP; IN; OP; ON].

(** The calls two successive [update()]s make. *)
Definition update_twice (nl : netlist) (dv : fourterm) : list solver_call :=
  update nl dv ++ update nl dv.

(** Modelled from the spec: a re-solve request marks the terminal's net
    dirty for the next solve (a flag, not a counter).  [schedule_solve]
    is declared outside [nld_fourterm.cpp]. *)
Definition mark_dirty (dv : fourterm) (dirty : net_id -> bool)
  (c : solver_call) : net_id -> bool :=
  match c with
  | schedule_solve t =>
      match terminal dv t with
      | Some tm => fun n => if Nat.eqb n (m_net tm) then true else dirty n
      | None => dirty
      end
  end.

Definition dirty_after (dv : fourterm) (cs : list solver_call)
  (dirty : net_id -> bool) : net_id -> bool :=
  fold_left (mark_dirty dv) cs dirty.

End Model.

Arguments stamp D : clear implicits.
Arguments terminal_t D : clear implicits.
Arguments net_t D : clear implicits.
Arguments netlist D : clear implicits.
Arguments VCCS D : clear implicits.
Arguments LVCCS D : clear implicits.
Arguments CCCS D : clear implicits.
Arguments VCVS D : clear implicits.
Arguments fourterm D : clear implicits.
Arguments setup_t D : clear implicits.
Arguments built D : clear implicits.
Arguments event D : clear implicits.

(** ** Sample objects *)

(** A terminal as its constructor leaves it, attached to net [n]. *)
Definition fresh_terminal {D : Type} (n : net_id) : terminal_t D :=
  {| t_name := ""; m_net := n; m_otherterm := None; m_stamp := None |}.

(** A VCCS object before [start_internal], its six terminals on the nets
    0 to 5 in the order IP, IN, OP, ON, OP1, ON1. *)
Definition fresh_VCCS {D : Type} (G RI gfac : D) : VCCS D :=
  {| m_G := G; m_RI := RI; m_gfac := gfac;
     m_IP := fresh_terminal 0; m_IN := fresh_terminal 1;
     m_OP := fresh_terminal 2; m_ON := fresh_terminal 3;
     m_OP1 := fresh_terminal 4; m_ON1 := fresh_terminal 5 |}.

Definition fresh_LVCCS {D : Type} (G RI gfac cur_limit vi : D) : LVCCS D :=
  {| lv_VCCS := fresh_VCCS G RI gfac; m_cur_limit := cur_limit; m_vi := vi |}.

Definition fresh_VCVS {D : Type} (G RI gfac RO : D) : VCVS D :=
  {| vv_VCCS := fresh_VCCS G RI gfac; m_RO := RO;
     m_OP2 := fresh_terminal 4; m_ON2 := fresh_terminal 5 |}.

(** Nets given by their rail flags and voltages. *)
Definition nets_of {D : Type} (rail : net_id -> bool) (v : net_id -> D)
  : netlist D :=
  fun n => {| isRailNet := rail n; Q_Analog := v n |}.

(** ** The clamp over the reals *)

(** The current and the conductance of the last stamp written on OP. *)
Definition OP_current (d : LVCCS R) : R :=
  match m_stamp (m_OP (lv_VCCS d)) with
  | Some (stamp_GO_GT_I _ _ Idr) => Idr
  | _ => 0%R
  end.

Definition OP_conductance (d : LVCCS R) : R :=
  match m_stamp (m_OP (lv_VCCS d)) with
  | Some (stamp_G G) => G
  | Some (stamp_GO_GT GO _) => GO
  | Some (stamp_GO_GT_I GO _ _) => GO
  | None => 0%R
  end.

(** The device computes with multiplier [mult] and limit [cl], the input
    nets are [vi] apart, and the estimate [m_vi] has settled on [vi]. *)
Definition settled_at (mult cl vi : R) (nl : netlist R) (d : LVCCS R)
  : Prop :=
  (m_G (lv_VCCS d) * m_gfac (lv_VCCS d))%R = mult /\
  m_cur_limit d = cl /\
  input_voltage nl (lv_VCCS d) = vi /\
  m_vi d = vi.

Inductive direction : Type := to_plus_infinity | to_minus_infinity.

Definition beyond (dir : direction) (M vi : R) : Prop :=
  match dir with
  | to_plus_infinity => (M < vi)%R
  | to_minus_infinity => (vi < - M)%R
  end.

(** [f], read off the device after one [update_terminals] at the operating
    point [vi], tends to [l] as [vi] goes to infinity in the direction
    [dir]. *)
Definition tends_to (dir : direction) (mult cl : R) (f : LVCCS R -> R)
  (l : R) : Prop :=
  forall eps : R, (0 < eps)%R ->
  exists M : R, forall (vi : R) (nl : netlist R) (d : LVCCS R),
    beyond dir M vi -> settled_at mult cl vi nl d ->
    (Rabs (f (LVCCS_update_terminals nl d) - l) < eps)%R.

(** The saturation property as the spec words it. *)
Definition saturates_as_stated (mult cl : R) : Prop :=
  tends_to to_plus_infinity mult cl OP_current cl /\
  tends_to to_plus_infinity mult cl OP_conductance 0%R /\
  tends_to to_minus_infinity mult cl OP_current (- cl)%R /\
  tends_to to_minus_infinity mult cl OP_conductance 0%R.

(** An LVCCS settled at [vi], and nets that put [vi] across its input. *)
Definition settled_LVCCS (mult cl vi : R) : LVCCS R :=
  fresh_LVCCS mult 1e9%R 1%R cl vi.

Definition input_nets (vi : R) : netlist R :=
  nets_of (fun _ => false) (fun n => if Nat.eqb n 0 then vi else 0%R).

(** ** Readings of a device *)

(** Name, net and opposite terminal of the terminal behind [t]. *)
Definition wiring {D : Type} (dv : fourterm D) (t : term_id)
  : option (string * net_id * option term_id) :=
  option_map (fun tm => (t_name tm, m_net tm, m_otherterm tm))
             (terminal dv t).

(** The rail flags [update()] reads, in the order IP, IN, OP, ON. *)
Definition rail_flags {D : Type} (nl : netlist D) (d : VCCS D) : list bool :=
  [isRailNet (net nl (m_IP d)); isRailNet (net nl (m_IN d));
   isRailNet (net nl (m_OP d)); isRailNet (net nl (m_ON d))].



(** The curve the LVCCS linearises: the clamped current at input [v]. *)
Definition clamp_curve (mult cl v : R) : R := (cl * tanh (mult / cl * v))%R.

(** The line through the stamp on OP: conductance times voltage plus
    current. *)
Definition OP_line (d : LVCCS R) (v : R) : R :=
  (OP_conductance d * v + OP_current d)%R.

(** The stamps [update_terminals] writes once the estimate is [v]: the part
    of [NETLIB_UPDATE_TERMINALS(LVCCS)] after the choice of [m_vi]. *)
Definition stamp_clamp {D : Type} {ops : NlDouble D} (v : D) (d : LVCCS D)
  : LVCCS D :=
  let m_mult := nl_mul (m_G (lv_VCCS d)) (m_gfac (lv_VCCS d)) in
  let d := with_vi v d in
  let x := nl_mul (nl_div m_mult (m_cur_limit d)) (m_vi d) in
  let X := nl_tanh x in
  let beta := nl_mul m_mult (nl_sub nl_1_0 (nl_mul X X)) in
  let Idr := nl_sub (nl_mul (m_cur_limit d) X) (nl_mul beta (m_vi d)) in
  let d := lv_on_VCCS (on_OP (set3 beta nl_0_0 Idr)) d in
  let d := lv_on_VCCS (on_OP1 (set2 (nl_neg beta) nl_0_0)) d in
  let d := lv_on_VCCS (on_ON (set3 (nl_neg beta) nl_0_0 (nl_neg Idr))) d in
  let d := lv_on_VCCS (on_ON1 (set2 beta nl_0_0)) d in
  d.

(** ** The damped estimate *)

(** The value the damped branch of [update_terminals] gives [m_vi]:
    [m_vi + 0.2*std::tanh((vi - m_vi)/0.2)]. *)
Definition damped_estimate {D : Type} {ops : NlDouble D} (m vi : D) : D :=
  nl_add m (nl_mul nl_0_2 (nl_tanh (nl_div (nl_sub vi m) nl_0_2))).

(** The test that sends [update_terminals] into the damped branch:
    [std::abs(m_mult / m_cur_limit * vi) > 0.5]. *)
Definition damped_test {D : Type} {ops : NlDouble D} (nl : netlist D)
  (d : LVCCS D) : bool :=
  nl_gt (nl_abs (nl_mul
           (nl_div (nl_mul (m_G (lv_VCCS d)) (m_gfac (lv_VCCS d)))
                   (m_cur_limit d))
           (input_voltage nl (lv_VCCS d))))
        nl_0_5.

(** ** Runs in binary64 *)

(** [std::tanh] on its two tails, where its binary64 value needs no
    exponential: the argument itself below 2^-55 in magnitude and +-1 from
    22 on, as the GNU C library computes them and as correct rounding
    gives them.  In between the stand-in answers NaN; nothing below
    evaluates it there. *)
Definition tanh_tails (x : float) : float :=
  if PrimFloat.ltb (PrimFloat.abs x) 0x1p-55 then (x * (1 + x))%float
  else if PrimFloat.leb 22 (PrimFloat.abs x)
       then (if PrimFloat.ltb x 0 then (-1)%float else 1%float)
       else nan.

(** An LVCCS with input resistance 1e9 and gain factor 1, holding the
    estimate [vi], and nets with IP at [v] and every other net at 0. *)
Definition binary64_LVCCS (G cur_limit vi : float) : LVCCS float :=
  fresh_LVCCS G 1e9%float 1%float cur_limit vi.

Definition binary64_nets (v : float) : netlist float :=
  nets_of (fun _ => false) (fun n => if Nat.eqb n 0 then v else 0%float).

(** In the order of binary64, [new] is strictly on the way from [old] to
    [target] and not past it. *)
Definition moved_toward (old new target : float) : Prop :=
  (PrimFloat.ltb old target = true ->
   PrimFloat.ltb old new = true /\ PrimFloat.leb new target = true) /\
  (PrimFloat.ltb target old = true ->
   PrimFloat.ltb new old = true /\ PrimFloat.leb target new = true).

(** * Properties that hold for every arithmetic *)

Section Stamps.

Context {D : Type} {ops : NlDouble D}.
Local Open Scope nl_scope.

Lemma LVCCS_update_terminals_vi (nl : netlist D) (d : LVCCS D) :
  m_vi (LVCCS_update_terminals nl d) = next_vi nl d.
Proof.
  unfold LVCCS_update_terminals, next_vi, input_voltage.
  destruct (nl_gt _ _); reflexivity.
Qed.

Lemma LVCCS_update_terminals_cur_limit (nl : netlist D) (d : LVCCS D) :
  m_cur_limit (LVCCS_update_terminals nl d) = m_cur_limit d.
Proof.
  unfold LVCCS_update_terminals. destruct (nl_gt _ _); reflexivity.
Qed.

Lemma LVCCS_update_terminals_params (nl : netlist D) (d : LVCCS D) :
  let b := lv_VCCS d in
  let b' := lv_VCCS (LVCCS_update_terminals nl d) in
  m_G b' = m_G b /\ m_RI b' = m_RI b /\ m_gfac b' = m_gfac b /\
  m_IP b' = m_IP b /\ m_IN b' = m_IN b.
Proof.
  unfold LVCCS_update_terminals. destruct (nl_gt _ _); repeat split.
Qed.

(** The stamps on the output side, from the estimate the call settled on. *)
Lemma LVCCS_update_terminals_out (nl : netlist D) (d : LVCCS D) :
  let mult := m_G (lv_VCCS d) * m_gfac (lv_VCCS d) in
  let X := nl_tanh (mult / m_cur_limit d * next_vi nl d) in
  let beta := mult * (nl_1_0 - X * X) in
  let I := m_cur_limit d * X - beta * next_vi nl d in
  let b' := lv_VCCS (LVCCS_update_terminals nl d) in
  m_stamp (m_OP b') = Some (stamp_GO_GT_I beta nl_0_0 I) /\
  m_stamp (m_OP1 b') = Some (stamp_GO_GT (- beta) nl_0_0) /\
  m_stamp (m_ON b') = Some (stamp_GO_GT_I (- beta) nl_0_0 (- I)) /\
  m_stamp (m_ON1 b') = Some (stamp_GO_GT beta nl_0_0).
Proof.
  unfold LVCCS_update_terminals, next_vi, input_voltage.
  destruct (nl_gt _ _); repeat split.
Qed.

(** C1. Each LVCCS [update_terminals] call, with [mult = G * gainFactor]
    and [vi = V(IP) - V(IN)] read from the input nets, sets [filteredVi]
    to its previous value plus [0.2 * tanh ((vi - filteredVi) / 0.2)] when
    [|mult / currentLimit * vi| > 0.5] and to [vi] otherwise; then, with
    [x = mult / currentLimit * filteredVi], [X = tanh x],
    [beta = mult * (1 - X * X)] and [I = currentLimit * X - beta * filteredVi],
    it stamps OP with [(beta, 0, I)], OP1 with [(-beta, 0)], ON with
    [(-beta, 0, -I)] and ON1 with [(beta, 0)]. *)
Theorem LVCCS_update_terminals_spec (nl : netlist D) (d : LVCCS D) :
  let G := m_G (lv_VCCS d) in
  let gainFactor := m_gfac (lv_VCCS d) in
  let currentLimit := m_cur_limit d in
  let mult := G * gainFactor in
  let vi := Q_Analog (nl (m_net (m_IP (lv_VCCS d))))
            - Q_Analog (nl (m_net (m_IN (lv_VCCS d)))) in
  let filteredVi :=
    if nl_abs (mult / currentLimit * vi) >? nl_0_5
    then m_vi d + nl_0_2 * nl_tanh ((vi - m_vi d) / nl_0_2)
    else vi in
  let x := mult / currentLimit * filteredVi in
  let X := nl_tanh x in
  let beta := mult * (nl_1_0 - X * X) in
  let I := currentLimit * X - beta * filteredVi in
  let d' := LVCCS_update_terminals nl d in
  m_vi d' = filteredVi /\
  m_stamp (m_OP (lv_VCCS d')) = Some (stamp_GO_GT_I beta nl_0_0 I) /\
  m_stamp (m_OP1 (lv_VCCS d')) = Some (stamp_GO_GT (- beta) nl_0_0) /\
  m_stamp (m_ON (lv_VCCS d')) = Some (stamp_GO_GT_I (- beta) nl_0_0 (- I)) /\
  m_stamp (m_ON1 (lv_VCCS d')) = Some (stamp_GO_GT beta nl_0_0).
Proof.
  intros G gainFactor currentLimit mult vi filteredVi x X beta I d'.
  split.
  - apply LVCCS_update_terminals_vi.
  - apply (LVCCS_update_terminals_out nl d).
Qed.

(** C10. For every LVCCS, [update_terminals] writes stamps only to the
    output-side terminals OP, OP1, ON and ON1 and changes only the
    [filteredVi] estimate: the terminals IP and IN, with the conductance
    [1 / RI] stamped on them at reset, and the stored parameters G, RI,
    currentLimit and the gain factor are unchanged by the call. *)
Theorem LVCCS_update_terminals_frame (nl : netlist D) (d : LVCCS D) :
  let b := lv_VCCS d in
  let d' := LVCCS_update_terminals nl d in
  let b' := lv_VCCS d' in
  (m_IP b' = m_IP b /\ m_IN b' = m_IN b) /\
  (m_G b' = m_G b /\ m_RI b' = m_RI b /\ m_gfac b' = m_gfac b /\
   m_cur_limit d' = m_cur_limit d) /\
  (same_wiring (m_OP b) (m_OP b') /\ same_wiring (m_OP1 b) (m_OP1 b') /\
   same_wiring (m_ON b) (m_ON b') /\ same_wiring (m_ON1 b) (m_ON1 b')) /\
  (let r := lv_VCCS (LVCCS_update_terminals nl (LVCCS_reset d)) in
   m_stamp (m_IP r) = Some (stamp_G (nl_1_0 / m_RI b)) /\
   m_stamp (m_IN r) = Some (stamp_G (nl_1_0 / m_RI b))).
Proof.
  intros b d' b'.
  destruct (LVCCS_update_terminals_params nl d) as (HG & HRI & Hgf & HIP & HIN).
  split; [now split|].
  split; [repeat split; try assumption;
          apply LVCCS_update_terminals_cur_limit|].
  split.
  - subst b b' d'. unfold LVCCS_update_terminals.
    destruct (nl_gt _ _); repeat split.
  - intros r. subst r.
    destruct (LVCCS_update_terminals_params nl (LVCCS_reset d))
      as (_ & _ & _ & HIP' & HIN').
    rewrite HIP', HIN'. split; reflexivity.
Qed.

(** ** Requests for a re-solve *)

Lemma VCCS_update_first_non_rail (nl : netlist D) (d : VCCS D) :
  VCCS_update nl d =
  match first_non_rail nl d with
  | Some t => [schedule_solve t]
  | None => []
  end.
Proof.
  unfold VCCS_update, first_non_rail, find.
  destruct (isRailNet (net nl (m_IP d))); [|reflexivity].
  destruct (isRailNet (net nl (m_IN d))); [|reflexivity].
  destruct (isRailNet (net nl (m_OP d))); [|reflexivity].
  destruct (isRailNet (net nl (m_ON d))); reflexivity.
Qed.

Lemma update_base (nl : netlist D) (dv : fourterm D) :
  update nl dv = VCCS_update nl (base dv).
Proof. destruct dv; reflexivity. Qed.

Lemma update_at_most_one (nl : netlist D) (dv : fourterm D) :
  length (update nl dv) <= 1.
Proof.
  rewrite update_base, VCCS_update_first_non_rail.
  destruct (first_non_rail nl (base dv)); simpl; lia.
Qed.

(** C2. For every VCCS and every variant whose update delegates to it, one
    call to [update()] examines the terminals in the order IP, IN, OP, ON
    and issues exactly one [schedule_solve], on the first of them whose net
    is not a rail net; if all four nets are rail nets it issues none.  In
    particular, if the net of IP is a rail net and the net of IN is not, the
    request is on IN, whatever the nets of OP and ON are. *)
Theorem update_priority (nl : netlist D) (dv : fourterm D) :
  let rail t := isRailNet (net nl t) in
  let d := base dv in
  (update nl dv = match first_non_rail nl d with
                  | Some t => [schedule_solve t]
                  | None => []
                  end) /\
  (rail (m_IP d) = true -> rail (m_IN d) = true ->
   rail (m_OP d) = true -> rail (m_ON d) = true -> update nl dv = []) /\
  (rail (m_IP d) = true -> rail (m_IN d) = false ->
   update nl dv = [schedule_solve IN]).
Proof.
  intros rail d. subst rail d. rewrite update_base.
  split; [apply VCCS_update_first_non_rail|].
  unfold VCCS_update. split.
  - intros -> -> -> ->. reflexivity.
  - intros -> ->. reflexivity.
Qed.

Lemma dirty_after_twice (dv : fourterm D) (c : solver_call)
  (dirty : net_id -> bool) (n : net_id) :
  dirty_after dv [c; c] dirty n = dirty_after dv [c] dirty n.
Proof.
  destruct c as [t]. unfold dirty_after; simpl.
  destruct (terminal dv t) as [tm|]; [|reflexivity].
  destruct (Nat.eqb n (m_net tm)); reflexivity.
Qed.

(** Marking is idempotent: the nets marked for a re-solve by two
    [update()]s are those marked by one. *)
Lemma update_twice_marks (nl : netlist D) (dv : fourterm D)
  (dirty : net_id -> bool) (n : net_id) :
  dirty_after dv (update_twice nl dv) dirty n =
  dirty_after dv (update nl dv) dirty n.
Proof.
  pose proof (update_at_most_one nl dv) as Hlen. unfold update_twice.
  destruct (update nl dv) as [|c [|c' l]].
  - reflexivity.
  - apply dirty_after_twice.
  - simpl in Hlen. lia.
Qed.

(** C5, as the code has it.  Each [update()] issues at most one
    [schedule_solve]; a second [update()] on unchanged nets repeats the call
    of the first: the two invocations issue exactly two calls, both on the
    first of IP, IN, OP, ON whose net is not a rail net, when there is such
    a terminal, and none when all four nets are rail nets. *)
Theorem update_twice_repeats (nl : netlist D) (dv : fourterm D) :
  length (update nl dv) <= 1 /\
  update_twice nl dv =
    match first_non_rail nl (base dv) with
    | Some t => [schedule_solve t; schedule_solve t]
    | None => []
    end /\
  (rail_flags nl (base dv) <> [true; true; true; true] ->
   length (update_twice nl dv) = 2%nat) /\
  (rail_flags nl (base dv) = [true; true; true; true] ->
   update_twice nl dv = []).
Proof.
  split; [apply update_at_most_one|].
  unfold update_twice. rewrite update_base, VCCS_update_first_non_rail.
  unfold first_non_rail, rail_flags, find.
  destruct (isRailNet (net nl (m_IP (base dv))));
  destruct (isRailNet (net nl (m_IN (base dv))));
  destruct (isRailNet (net nl (m_OP (base dv))));
  destruct (isRailNet (net nl (m_ON (base dv)))); simpl;
  (split; [reflexivity|]); split; intros H;
  try reflexivity; try discriminate H; exfalso; apply H; reflexivity.
Qed.

End Stamps.

(** ** Reset *)

Section Reset.

Context {D : Type} {ops : NlDouble D}.
Local Open Scope nl_scope.

Lemma VCCS_reset_stamps (d : VCCS D) :
  let mult := m_G d * m_gfac d in
  let GI := nl_1_0 / m_RI d in
  let d' := VCCS_reset d in
  m_stamp (m_IP d') = Some (stamp_G GI) /\
  m_stamp (m_IN d') = Some (stamp_G GI) /\
  m_stamp (m_OP d') = Some (stamp_GO_GT mult nl_0_0) /\
  m_stamp (m_OP1 d') = Some (stamp_GO_GT (- mult) nl_0_0) /\
  m_stamp (m_ON d') = Some (stamp_GO_GT (- mult) nl_0_0) /\
  m_stamp (m_ON1 d') = Some (stamp_GO_GT mult nl_0_0).
Proof. repeat split. Qed.

Lemma VCVS_reset_stamps (d : VCVS D) :
  let GO := nl_1_0 / m_RO d in
  let mult := m_G (vv_VCCS d) * GO in
  let GI := nl_1_0 / m_RI (vv_VCCS d) in
  let d' := VCVS_reset d in
  m_gfac (vv_VCCS d') = GO /\
  (m_stamp (m_IP (vv_VCCS d')) = Some (stamp_G GI) /\
   m_stamp (m_IN (vv_VCCS d')) = Some (stamp_G GI)) /\
  (m_stamp (m_OP (vv_VCCS d')) = Some (stamp_GO_GT mult nl_0_0) /\
   m_stamp (m_OP1 (vv_VCCS d')) = Some (stamp_GO_GT (- mult) nl_0_0) /\
   m_stamp (m_ON (vv_VCCS d')) = Some (stamp_GO_GT (- mult) nl_0_0) /\
   m_stamp (m_ON1 (vv_VCCS d')) = Some (stamp_GO_GT mult nl_0_0)) /\
  (m_stamp (m_OP2 d') = Some (stamp_G GO) /\
   m_stamp (m_ON2 d') = Some (stamp_G GO)).
Proof. repeat split. Qed.

End Reset.

(** C3. After VCCS reset with gain G, input resistance RI and gain factor
    gfac, IP and IN each carry the conductance [1 / RI], OP carries
    [G * gfac] and its auxiliary OP1 [-(G * gfac)], ON carries [-(G * gfac)]
    and its auxiliary ON1 [G * gfac].  For G = 1.0, RI = 1e9 and gfac = 1.0
    the conductance on IP and IN is 1e-9 and the output pairs are (1, -1) on
    (OP, OP1) and (-1, 1) on (ON, ON1), over the reals and in binary64. *)
Theorem VCCS_reset_spec :
  (forall (D : Type) (ops : NlDouble D) (d : VCCS D),
     let mult := nl_mul (m_G d) (m_gfac d) in
     let GI := nl_div nl_1_0 (m_RI d) in
     let d' := VCCS_reset d in
     m_stamp (m_IP d') = Some (stamp_G GI) /\
     m_stamp (m_IN d') = Some (stamp_G GI) /\
     m_stamp (m_OP d') = Some (stamp_GO_GT mult nl_0_0) /\
     m_stamp (m_OP1 d') = Some (stamp_GO_GT (nl_neg mult) nl_0_0) /\
     m_stamp (m_ON d') = Some (stamp_GO_GT (nl_neg mult) nl_0_0) /\
     m_stamp (m_ON1 d') = Some (stamp_GO_GT mult nl_0_0)) /\
  (forall d : VCCS R,
     m_G d = 1%R -> m_RI d = 1e9%R -> m_gfac d = 1%R ->
     let d' := VCCS_reset d in
     m_stamp (m_IP d') = Some (stamp_G 1e-9%R) /\
     m_stamp (m_IN d') = Some (stamp_G 1e-9%R) /\
     m_stamp (m_OP d') = Some (stamp_GO_GT 1%R 0%R) /\
     m_stamp (m_OP1 d') = Some (stamp_GO_GT (-1)%R 0%R) /\
     m_stamp (m_ON d') = Some (stamp_GO_GT (-1)%R 0%R) /\
     m_stamp (m_ON1 d') = Some (stamp_GO_GT 1%R 0%R)) /\
  (forall (c_tanh : float -> float) (d : VCCS float),
     m_G d = 1%float -> m_RI d = 1e9%float -> m_gfac d = 1%float ->
     let d' := @VCCS_reset float (binary64 c_tanh) d in
     m_stamp (m_IP d') = Some (stamp_G 1e-9%float) /\
     m_stamp (m_IN d') = Some (stamp_G 1e-9%float) /\
     m_stamp (m_OP d') = Some (stamp_GO_GT 1%float 0%float) /\
     m_stamp (m_OP1 d') = Some (stamp_GO_GT (-1)%float 0%float) /\
     m_stamp (m_ON d') = Some (stamp_GO_GT (-1)%float 0%float) /\
     m_stamp (m_ON1 d') = Some (stamp_GO_GT 1%float 0%float)).
Proof.
  split; [intros D ops d; apply VCCS_reset_stamps|]. split.
  - intros d HG HRI Hgf d'.
    destruct (VCCS_reset_stamps d) as (H1 & H2 & H3 & H4 & H5 & H6).
    fold d' in H1, H2, H3, H4, H5, H6.
    rewrite H1, H2, H3, H4, H5, H6, HG, HRI, Hgf. simpl.
    replace (1 / 1e9)%R with 1e-9%R by lra.
    replace (1 * 1)%R with 1%R by lra.
    repeat split.
  - intros c_tanh d HG HRI Hgf d'.
    destruct (@VCCS_reset_stamps float (binary64 c_tanh) d)
      as (H1 & H2 & H3 & H4 & H5 & H6).
    fold d' in H1, H2, H3, H4, H5, H6.
    rewrite H1, H2, H3, H4, H5, H6, HG, HRI, Hgf.
    repeat split.
Qed.

Lemma VCCS_reset_spec_witness :
  let d := VCCS_reset (fresh_VCCS 1%R 1e9%R 1%R) in
  m_stamp (m_IP d) = Some (stamp_G 1e-9%R) /\
  m_stamp (m_IN d) = Some (stamp_G 1e-9%R) /\
  m_stamp (m_OP d) = Some (stamp_GO_GT 1%R 0%R) /\
  m_stamp (m_OP1 d) = Some (stamp_GO_GT (-1)%R 0%R) /\
  m_stamp (m_ON d) = Some (stamp_GO_GT (-1)%R 0%R) /\
  m_stamp (m_ON1 d) = Some (stamp_GO_GT 1%R 0%R).
Proof.
  apply (proj1 (proj2 VCCS_reset_spec) (fresh_VCCS 1%R 1e9%R 1%R));
    reflexivity.
Defined.

(** C8. VCVS reset first sets the gain factor to [1 / RO] and then runs the
    VCCS reset, so that afterwards OP carries [G * (1 / RO)], OP1 and ON its
    negation, ON1 [G * (1 / RO)], IP and IN each [1 / RI], and the two extra
    terminals OP2 and ON2 each carry the conductance [1 / RO]; over the
    reals the shared multiplier [G * (1 / RO)] is [G / RO]. *)
Theorem VCVS_reset_spec :
  (forall (D : Type) (ops : NlDouble D) (d : VCVS D),
     let GO := nl_div nl_1_0 (m_RO d) in
     let mult := nl_mul (m_G (vv_VCCS d)) GO in
     let GI := nl_div nl_1_0 (m_RI (vv_VCCS d)) in
     let d' := VCVS_reset d in
     VCVS_reset d =
       on_ON2 (set1 GO) (on_OP2 (set1 GO)
         (vv_on_VCCS VCCS_reset (vv_on_VCCS (with_gfac GO) d))) /\
     m_gfac (vv_VCCS d') = GO /\
     (m_stamp (m_IP (vv_VCCS d')) = Some (stamp_G GI) /\
      m_stamp (m_IN (vv_VCCS d')) = Some (stamp_G GI)) /\
     (m_stamp (m_OP (vv_VCCS d')) = Some (stamp_GO_GT mult nl_0_0) /\
      m_stamp (m_OP1 (vv_VCCS d')) = Some (stamp_GO_GT (nl_neg mult) nl_0_0) /\
      m_stamp (m_ON (vv_VCCS d')) = Some (stamp_GO_GT (nl_neg mult) nl_0_0) /\
      m_stamp (m_ON1 (vv_VCCS d')) = Some (stamp_GO_GT mult nl_0_0)) /\
     (m_stamp (m_OP2 d') = Some (stamp_G GO) /\
      m_stamp (m_ON2 d') = Some (stamp_G GO))) /\
  (forall d : VCVS R,
     let G := m_G (vv_VCCS d) in
     let RI := m_RI (vv_VCCS d) in
     let RO := m_RO d in
     let d' := VCVS_reset d in
     nl_mul (m_G (vv_VCCS d')) (m_gfac (vv_VCCS d')) = (G / RO)%R /\
     (m_stamp (m_IP (vv_VCCS d')) = Some (stamp_G (1 / RI)%R) /\
      m_stamp (m_IN (vv_VCCS d')) = Some (stamp_G (1 / RI)%R)) /\
     (m_stamp (m_OP (vv_VCCS d')) = Some (stamp_GO_GT (G / RO)%R 0%R) /\
      m_stamp (m_OP1 (vv_VCCS d')) = Some (stamp_GO_GT (- (G / RO))%R 0%R) /\
      m_stamp (m_ON (vv_VCCS d')) = Some (stamp_GO_GT (- (G / RO))%R 0%R) /\
      m_stamp (m_ON1 (vv_VCCS d')) = Some (stamp_GO_GT (G / RO)%R 0%R)) /\
     (m_stamp (m_OP2 d') = Some (stamp_G (1 / RO)%R) /\
      m_stamp (m_ON2 d') = Some (stamp_G (1 / RO)%R))).
Proof.
  split.
  - intros D ops d GO mult GI d'. split; [reflexivity|].
    apply VCVS_reset_stamps.
  - intros d G RI RO d'.
    assert (Hm : (G * (1 / RO))%R = (G / RO)%R) by (unfold Rdiv; ring).
    subst d'. cbn. fold G RI RO. rewrite Hm. repeat split.
Qed.

(** A VCVS of gain 2 into 4 ohm, run in binary64: the multiplier is
    2 * (1 / 4) and the output conductances are 1 / 4. *)
Example VCVS_reset_binary64 (c_tanh : float -> float) :
  let d' := @VCVS_reset float (binary64 c_tanh)
              (fresh_VCVS 2%float 1e9%float 1%float 4%float) in
  m_gfac (vv_VCCS d') = 0.25%float /\
  m_stamp (m_OP (vv_VCCS d')) = Some (stamp_GO_GT 0.5%float 0%float) /\
  m_stamp (m_ON (vv_VCCS d')) = Some (stamp_GO_GT (-0.5)%float 0%float) /\
  m_stamp (m_OP2 d') = Some (stamp_G 0.25%float) /\
  m_stamp (m_ON2 d') = Some (stamp_G 0.25%float).
Proof. repeat split. Qed.

(** C9. VCCS reset validates nothing and raises nothing: it is a total
    function of the device, and for every parameter assignment it stamps IP
    and IN with [1 / RI]; in binary64 with RI = 0 that conductance is
    infinity, which it stamps all the same. *)
Theorem VCCS_reset_unchecked :
  (forall (D : Type) (ops : NlDouble D) (d : VCCS D),
     exists d', VCCS_reset d = d' /\
       m_RI d' = m_RI d /\
       m_stamp (m_IP d') = Some (stamp_G (nl_div nl_1_0 (m_RI d))) /\
       m_stamp (m_IN d') = Some (stamp_G (nl_div nl_1_0 (m_RI d)))) /\
  (forall (c_tanh : float -> float) (d : VCCS float),
     m_RI d = 0%float ->
     let d' := @VCCS_reset float (binary64 c_tanh) d in
     m_stamp (m_IP d') = Some (stamp_G infinity) /\
     m_stamp (m_IN d') = Some (stamp_G infinity)).
Proof.
  split.
  - intros D ops d. exists (VCCS_reset d). repeat split.
  - intros c_tanh d HRI d'.
    destruct (@VCCS_reset_stamps float (binary64 c_tanh) d)
      as (H1 & H2 & _).
    fold d' in H1, H2. rewrite H1, H2, HRI. split; reflexivity.
Qed.

Lemma VCCS_reset_unchecked_witness :
  let d' := @VCCS_reset float (binary64 (fun x => x))
              (fresh_VCCS 1%float 0%float 1%float) in
  m_stamp (m_IP d') = Some (stamp_G infinity) /\
  m_stamp (m_IN d') = Some (stamp_G infinity).
Proof.
  apply (proj2 VCCS_reset_unchecked (fun x => x)
           (fresh_VCCS 1%float 0%float 1%float)).
  reflexivity.
Defined.

(** ** Two devices with IP on a rail net *)

Lemma update_priority_witness :
  update (nets_of (Nat.eqb 0) (fun _ => 0%R))
         (dev_VCCS (fresh_VCCS 1%R 1e9%R 1%R)) = [schedule_solve IN].
Proof.
  apply (proj2 (proj2 (update_priority
           (nets_of (Nat.eqb 0) (fun _ => 0%R))
           (dev_VCCS (fresh_VCCS 1%R 1e9%R 1%R))))); reflexivity.
Defined.

(** C5, as the spec words it, fails: on a device whose IP is on a rail net
    and whose IN is not, two [update()]s over unchanged nets issue two
    [schedule_solve] calls, not at most one. *)
Lemma update_twice_two_calls :
  update_twice (nets_of (Nat.eqb 0) (fun _ => 0%R))
               (dev_VCCS (fresh_VCCS 1%R 1e9%R 1%R))
    = [schedule_solve IN; schedule_solve IN] /\
  ~ length (update_twice (nets_of (Nat.eqb 0) (fun _ => 0%R))
                         (dev_VCCS (fresh_VCCS 1%R 1e9%R 1%R))) <= 1.
Proof.
  split; [reflexivity|]. simpl. lia.
Qed.

Lemma update_twice_repeats_witness :
  length (update_twice (nets_of (Nat.eqb 0) (fun _ => 0%R))
                       (dev_VCCS (fresh_VCCS 1%R 1e9%R 1%R))) = 2%nat.
Proof.
  apply (proj1 (proj2 (proj2 (update_twice_repeats
           (nets_of (Nat.eqb 0) (fun _ => 0%R))
           (dev_VCCS (fresh_VCCS 1%R 1e9%R 1%R)))))).
  discriminate.
Defined.

(** ** Opposite terminals over the life of a device *)

Section Lifecycle.

Context {D : Type} {ops : NlDouble D}.

Lemma otherterm_reset (dv : fourterm D) (t : term_id) :
  otherterm (reset dv) t = otherterm dv t.
Proof. destruct dv, t; reflexivity. Qed.

Lemma otherterm_update_terminals (nl : netlist D) (dv : fourterm D)
  (t : term_id) :
  otherterm (update_terminals nl dv) t = otherterm dv t.
Proof.
  destruct dv as [d|d|d|d]; try reflexivity.
  unfold update_terminals, LVCCS_update_terminals.
  destruct (nl_gt _ _); destruct t; reflexivity.
Qed.

Lemma lifecycle_inv_otherterm (f : fourterm D -> fourterm D) (s : built D) :
  (forall t, otherterm (f (b_dev s)) t = otherterm (b_dev s) t) ->
  lifecycle_inv s -> lifecycle_inv (on_dev f s).
Proof.
  intros Hf (Hlate & Hin & Hout).
  unfold lifecycle_inv, cross_referenced in *. simpl.
  rewrite !Hf. auto.
Qed.

Lemma lifecycle_inv_construct (def_RI : D) (params : string -> option D)
  (this : fourterm D) :
  lifecycle_inv (construct def_RI params this) /\
  b_finalized (construct def_RI params this) = false.
Proof.
  destruct this; repeat split.
Qed.

Lemma lifecycle_inv_finalize (s s' : built D) :
  lifecycle_inv s -> finalize s = Some s' ->
  lifecycle_inv s' /\ b_finalized s = false /\ b_finalized s' = true.
Proof.
  intros (Hlate & Hin & Hout). unfold finalize.
  destruct (b_finalized s) eqn:Hfin; [discriminate|].
  intros [= <-]. split; [|now split].
  unfold lifecycle_inv, cross_referenced in *. simpl.
  rewrite Hlate. simpl.
  destruct (b_dev s); cbn in *; tauto.
Qed.

Lemma lifecycle_inv_exec (e : event D) (s s' : built D) :
  lifecycle_inv s -> exec e s = Some s' ->
  lifecycle_inv s' /\
  b_finalized s' = b_finalized s || is_finalize e /\
  (is_finalize e = true -> b_finalized s = false).
Proof.
  intros Hinv. destruct e as [|nl|nl|]; simpl.
  - intros [= <-]. rewrite orb_false_r.
    split; [|split; [reflexivity|discriminate]].
    apply lifecycle_inv_otherterm; [apply otherterm_reset|assumption].
  - intros [= <-]. rewrite orb_false_r.
    split; [assumption|split; [reflexivity|discriminate]].
  - intros [= <-]. rewrite orb_false_r.
    split; [|split; [reflexivity|discriminate]].
    apply lifecycle_inv_otherterm;
      [apply otherterm_update_terminals|assumption].
  - intros Hf.
    destruct (lifecycle_inv_finalize s s' Hinv Hf) as (H' & H0 & H1).
    rewrite H0, H1. auto.
Qed.

Lemma lifecycle_inv_run (es : list (event D)) :
  forall s s' : built D,
  lifecycle_inv s -> run es s = Some s' ->
  lifecycle_inv s' /\
  b_finalized s' = b_finalized s || existsb is_finalize es /\
  length (filter is_finalize es) + (if b_finalized s then 1 else 0) <= 1.
Proof.
  induction es as [|e es IH]; intros s s' Hinv; simpl.
  - intros [= <-]. rewrite orb_false_r.
    split; [assumption|split; [reflexivity|destruct (b_finalized s); lia]].
  - destruct (exec e s) as [s1|] eqn:He; [|discriminate].
    intros Hrun.
    destruct (lifecycle_inv_exec e s s1 Hinv He) as (Hinv1 & Hfin1 & Hfst).
    destruct (IH s1 s' Hinv1 Hrun) as (Hinv' & Hfin' & Hcount).
    split; [assumption|]. split.
    + rewrite Hfin', Hfin1, orb_assoc. reflexivity.
    + rewrite Hfin1 in Hcount. destruct (is_finalize e); simpl.
      * rewrite (Hfst eq_refl) in *. simpl in Hcount. lia.
      * rewrite orb_false_r in Hcount. exact Hcount.
Qed.

(** C4. For every device of the four-terminal family and at every moment
    after its construction, IP and IN name each other as opposite terminal;
    OP and OP1, and ON and ON1, name each other as opposite terminal once
    the topology has been finalized and not before, and no run finalizes
    the topology more than once. *)
Theorem opposite_terminals_lifecycle (def_RI : D)
  (params : string -> option D) (this : fourterm D)
  (es : list (event D)) (s : built D) :
  run es (construct def_RI params this) = Some s ->
  cross_referenced (b_dev s) IP IN /\
  (existsb is_finalize es = false ->
   ~ cross_referenced (b_dev s) OP OP1 /\
   ~ cross_referenced (b_dev s) ON ON1) /\
  (existsb is_finalize es = true ->
   cross_referenced (b_dev s) OP OP1 /\
   cross_referenced (b_dev s) ON ON1) /\
  length (filter is_finalize es) <= 1.
Proof.
  intros Hrun.
  destruct (lifecycle_inv_construct def_RI params this) as (Hinv0 & Hfin0).
  destruct (lifecycle_inv_run es _ s Hinv0 Hrun)
    as ((_ & Hin & Hout) & Hfin & Hcount).
  rewrite Hfin0 in Hfin, Hcount. simpl in Hfin.
  split; [assumption|]. rewrite Hfin in Hout.
  split; [|split].
  - intros Hno. rewrite Hno in Hout.
    destruct Hout as (HOP & _ & HON & _).
    unfold cross_referenced. rewrite HOP, HON.
    split; intros [[=] _].
  - intros Hyes. rewrite Hyes in Hout. exact Hout.
  - lia.
Qed.

End Lifecycle.

Lemma opposite_terminals_lifecycle_witness :
  exists s : built R,
    run [ev_reset; ev_finalize; ev_reset]
        (construct 1e9%R (fun _ => None)
           (dev_VCCS (fresh_VCCS 1%R 1e9%R 1%R))) = Some s /\
    cross_referenced (b_dev s) IP IN /\
    cross_referenced (b_dev s) OP OP1 /\
    cross_referenced (b_dev s) ON ON1.
Proof.
  eexists. split; [reflexivity|].
  pose proof (opposite_terminals_lifecycle 1e9%R (fun _ => None)
                (dev_VCCS (fresh_VCCS 1%R 1e9%R 1%R))
                [ev_reset; ev_finalize; ev_reset] _ eq_refl)
    as (Hin & _ & Hout & _).
  split; [exact Hin|exact (Hout eq_refl)].
Defined.

(** * The clamp over the reals *)

(** ** The hyperbolic tangent *)

Section Tanh.

Local Open Scope R_scope.

Lemma cosh_gt_0 (x : R) : 0 < cosh x.
Proof.
  unfold cosh. pose proof (exp_pos x). pose proof (exp_pos (- x)). lra.
Qed.

Lemma sinh_opp (x : R) : sinh (- x) = - sinh x.
Proof. unfold sinh. rewrite Ropp_involutive. lra. Qed.

Lemma cosh_opp (x : R) : cosh (- x) = cosh x.
Proof. unfold cosh. rewrite Ropp_involutive. lra. Qed.

Lemma tanh_opp (x : R) : tanh (- x) = - tanh x.
Proof. unfold tanh. rewrite sinh_opp, cosh_opp. lra. Qed.

Lemma tanh_0 : tanh 0 = 0.
Proof. unfold tanh. rewrite sinh_0. lra. Qed.

Lemma sinh_gt_0 (x : R) : 0 < x -> 0 < sinh x.
Proof. intros Hx. rewrite <- sinh_0. now apply sinh_lt. Qed.

Lemma tanh_gt_0 (x : R) : 0 < x -> 0 < tanh x.
Proof.
  intros Hx. unfold tanh.
  apply Rdiv_lt_0_compat; [now apply sinh_gt_0|apply cosh_gt_0].
Qed.

(** [x * cosh x - sinh x] has derivative [x * sinh x], positive right of 0. *)
Lemma sinh_lt_id_cosh (x : R) : 0 < x -> sinh x < x * cosh x.
Proof.
  intros Hx.
  pose (g := (id * cosh - sinh)%F).
  pose (g' := fun c : R => (1 * cosh c + id c * sinh c) - cosh c).
  assert (Hd : forall c, 0 <= c <= x -> derivable_pt_lim g c (g' c)).
  { intros c _. unfold g, g'.
    apply derivable_pt_lim_minus.
    - apply derivable_pt_lim_mult;
        [apply derivable_pt_lim_id|apply derivable_pt_lim_cosh].
    - apply derivable_pt_lim_sinh. }
  destruct (MVT_cor2 g g' 0 x Hx Hd) as (c & Heq & Hc0 & Hcx).
  unfold g, g', mult_fct, minus_fct, id in Heq.
  rewrite sinh_0, cosh_0 in Heq.
  pose proof (sinh_gt_0 c Hc0) as Hs.
  assert (0 < c * sinh c * x).
  { apply Rmult_lt_0_compat; [apply Rmult_lt_0_compat|]; assumption. }
  nra.
Qed.

Lemma tanh_lt_id (x : R) : 0 < x -> tanh x < x.
Proof.
  intros Hx. unfold tanh.
  pose proof (cosh_gt_0 x) as Hc.
  apply (Rmult_lt_reg_r (cosh x)); [assumption|].
  unfold Rdiv. rewrite Rmult_assoc, Rinv_l, Rmult_1_r by lra.
  now apply sinh_lt_id_cosh.
Qed.

(** One relaxation step of width [w]: it moves by less than the gap. *)
Lemma relax_step (w a v : R) :
  0 < w -> a < v ->
  a < a + w * tanh ((v - a) / w) < v.
Proof.
  intros Hw Hav.
  assert (Hy : 0 < (v - a) / w) by (apply Rdiv_lt_0_compat; lra).
  pose proof (tanh_gt_0 _ Hy) as H0.
  pose proof (tanh_lt_id _ Hy) as H1.
  assert (w * tanh ((v - a) / w) < v - a).
  { replace (v - a) with (w * ((v - a) / w)) at 2 by (field; lra).
    apply Rmult_lt_compat_l; assumption. }
  assert (0 < w * tanh ((v - a) / w)) by (apply Rmult_lt_0_compat; lra).
  lra.
Qed.

Lemma relax_step_down (w a v : R) :
  0 < w -> v < a ->
  v < a + w * tanh ((v - a) / w) < a.
Proof.
  intros Hw Hav.
  replace ((v - a) / w) with (- ((a - v) / w)) by (field; lra).
  rewrite tanh_opp.
  assert (Hy : 0 < (a - v) / w) by (apply Rdiv_lt_0_compat; lra).
  pose proof (tanh_gt_0 _ Hy) as H0.
  pose proof (tanh_lt_id _ Hy) as H1.
  assert (w * tanh ((a - v) / w) < a - v).
  { replace (a - v) with (w * ((a - v) / w)) at 2 by (field; lra).
    apply Rmult_lt_compat_l; assumption. }
  assert (0 < w * tanh ((a - v) / w)) by (apply Rmult_lt_0_compat; lra).
  lra.
Qed.

(** [tanh] stays below 1 and closes in on it. *)
Lemma tanh_lt_1 (x : R) : tanh x < 1.
Proof.
  unfold tanh. pose proof (cosh_gt_0 x) as Hc.
  apply (Rmult_lt_reg_r (cosh x)); [assumption|].
  unfold Rdiv. rewrite Rmult_assoc, Rinv_l, Rmult_1_r, Rmult_1_l by lra.
  unfold sinh, cosh. pose proof (exp_pos (- x)). lra.
Qed.

Lemma one_minus_tanh (x : R) : 1 - tanh x = 2 / (exp (2 * x) + 1).
Proof.
  unfold tanh, sinh, cosh.
  pose proof (exp_pos x) as Hp. pose proof (exp_pos (- x)) as Hn.
  replace (2 * x) with (x + x) by lra. rewrite exp_plus.
  assert (Hinv : exp x * exp (- x) = 1).
  { rewrite <- exp_plus. replace (x + - x) with 0 by lra. apply exp_0. }
  assert (0 < exp x * exp x) by (apply Rmult_lt_0_compat; lra).
  apply (Rmult_eq_reg_r ((exp x + exp (- x)) / 2 * (exp x * exp x + 1)));
    [|apply Rgt_not_eq; apply Rmult_lt_0_compat; lra].
  field_simplify; [|lra|lra].
  replace (exp (- x)) with (/ exp x) in * by
    (apply (Rmult_eq_reg_l (exp x)); [rewrite Hinv; field; lra|lra]).
  field. lra.
Qed.

Lemma one_minus_tanh_bound (x : R) :
  0 <= x -> 0 < 1 - tanh x <= 2 / ((1 + x) * (1 + x)).
Proof.
  intros Hx. split; [pose proof (tanh_lt_1 x); lra|].
  rewrite one_minus_tanh.
  assert (Hsq : (1 + x) * (1 + x) <= exp (2 * x)).
  { replace (2 * x) with (x + x) by lra. rewrite exp_plus.
    pose proof (exp_ineq1_le x).
    apply Rmult_le_compat; lra. }
  assert (0 < (1 + x) * (1 + x)) by (apply Rmult_lt_0_compat; lra).
  unfold Rdiv. apply Rmult_le_compat_l; [lra|].
  apply Rinv_le_contravar; lra.
Qed.

Lemma tanh_ge_0 (x : R) : 0 <= x -> 0 <= tanh x.
Proof.
  intros [Hx| <-]; [left; now apply tanh_gt_0|rewrite tanh_0; lra].
Qed.

(** How far the clamp is from its limit at [y >= 0]. *)
Lemma clamp_gap_bound (y : R) :
  0 <= y ->
  let X := tanh y in
  0 <= 1 - X * X <= 4 / (1 + y) /\
  0 <= (1 - X) + y * (1 - X * X) <= 4 / (1 + y).
Proof.
  intros Hy X.
  pose proof (tanh_ge_0 y Hy) as H0. fold X in H0.
  destruct (one_minus_tanh_bound y Hy) as (H1 & H2). fold X in H1, H2.
  assert (Hp : 0 < 1 + y) by lra.
  assert (HB : 2 / ((1 + y) * (1 + y)) * (1 + y) = 2 / (1 + y))
    by (field; lra).
  assert (Hq : 0 < 2 / (1 + y)) by (apply Rdiv_lt_0_compat; lra).
  assert (Hr : 4 / (1 + y) = 2 * (2 / (1 + y))) by (field; lra).
  set (B := 2 / ((1 + y) * (1 + y))) in *.
  set (C := 2 / (1 + y)) in *.
  assert (HB1 : B <= C) by nra.
  assert (HyB : y * B <= C) by nra.
  assert (Hsq : 1 - X * X <= 2 * (1 - X)) by nra.
  assert (Hsq0 : 0 <= 1 - X * X) by nra.
  rewrite Hr. split; split; try nra.
Qed.

End Tanh.

(** ** Saturation *)

Section Clamp.

Local Open Scope R_scope.

Lemma Rgtb_true (x y : R) : Rgtb x y = true <-> x > y.
Proof. unfold Rgtb. destruct (Rgt_dec x y); split; intros; try easy. Qed.

Lemma next_vi_settled (mult cl vi : R) (nl : netlist R) (d : LVCCS R) :
  settled_at mult cl vi nl d -> next_vi nl d = vi.
Proof.
  intros (_ & _ & Hin & Hvi). unfold next_vi. rewrite Hin, Hvi. simpl.
  destruct (Rgtb _ _); [|reflexivity].
  replace ((vi - vi) / 0.2) with 0 by lra. rewrite tanh_0. lra.
Qed.

Lemma settled_update (mult cl vi : R) (nl : netlist R) (d : LVCCS R) :
  settled_at mult cl vi nl d ->
  let X := tanh (mult / cl * vi) in
  OP_current (LVCCS_update_terminals nl d)
    = cl * X - mult * (1 - X * X) * vi /\
  OP_conductance (LVCCS_update_terminals nl d) = mult * (1 - X * X).
Proof.
  intros Hs X.
  pose proof (next_vi_settled _ _ _ _ _ Hs) as Hnext.
  destruct Hs as (Hm & Hcl & _ & _).
  destruct (LVCCS_update_terminals_out nl d) as (HOP & _).
  unfold OP_current, OP_conductance. rewrite HOP, Hnext. simpl.
  rewrite Hm, Hcl. fold X. split; reflexivity.
Qed.

Lemma clamp_far (mult cl eps v : R) :
  cl <> 0 -> 0 < eps ->
  4 * (Rabs cl + Rabs mult) < eps * Rabs (mult / cl * v) ->
  let x := mult / cl * v in
  let X := tanh x in
  let beta := mult * (1 - X * X) in
  let Idr := cl * X - beta * v in
  Rabs beta < eps /\
  (0 < x -> Rabs (Idr - cl) < eps) /\
  (x < 0 -> Rabs (Idr + cl) < eps).
Proof.
  intros Hcl Heps Hfar x X beta Idr. fold x in Hfar.
  assert (Hmv : mult * v = cl * x) by (unfold x; field; assumption).
  pose proof (Rabs_pos cl) as Hacl. pose proof (Rabs_pos mult) as Hamult.
  set (y := Rabs x) in *.
  assert (Hy : 0 <= y) by apply Rabs_pos.
  destruct (clamp_gap_bound y Hy) as ((Hb0 & Hb1) & (Hp0 & Hp1)).
  set (T := 4 / (1 + y)) in *.
  assert (HT : T * (1 + y) = 4) by (unfold T; field; lra).
  assert (HcT : Rabs cl * T < eps) by nra.
  assert (HmT : Rabs mult * T < eps) by nra.
  assert (HXX : X * X = tanh y * tanh y).
  { unfold X, y. destruct (Rcase_abs x) as [Hn|Hn].
    - rewrite (Rabs_left _ Hn), tanh_opp. ring.
    - rewrite (Rabs_right _ Hn). reflexivity. }
  split; [|split].
  - unfold beta. rewrite Rabs_mult, HXX, (Rabs_right (1 - _)) by lra. nra.
  - intros Hx.
    assert (Hyx : y = x) by (unfold y; apply Rabs_right; lra).
    replace (Idr - cl) with (- cl * ((1 - X) + x * (1 - X * X)))
      by (unfold Idr, beta; nra).
    rewrite Rabs_mult, Rabs_Ropp. unfold X. rewrite <- Hyx.
    rewrite (Rabs_right (_ + _)) by lra. nra.
  - intros Hx.
    assert (Hyx : y = - x) by (unfold y; apply Rabs_left; lra).
    assert (HX : X = - tanh y) by (unfold X; rewrite Hyx, tanh_opp; ring).
    replace (Idr + cl) with (cl * ((1 - tanh y) + y * (1 - X * X)))
      by (unfold Idr, beta; rewrite HX, Hyx; nra).
    rewrite Rabs_mult, HXX, (Rabs_right (_ + _)) by lra. nra.
Qed.

Lemma far_beyond (dir : direction) (mult cl eps : R) :
  mult <> 0 -> cl <> 0 -> 0 < eps ->
  exists M : R, 0 <= M /\
    forall vi : R, beyond dir M vi ->
      4 * (Rabs cl + Rabs mult) < eps * Rabs (mult / cl * vi).
Proof.
  intros Hm Hcl Heps.
  assert (Hk : mult / cl <> 0).
  { unfold Rdiv. apply Rmult_integral_contrapositive_currified;
      [assumption|now apply Rinv_neq_0_compat]. }
  pose proof (Rabs_pos_lt _ Hk) as Hak.
  pose proof (Rabs_pos cl) as Hacl. pose proof (Rabs_pos mult) as Hamult.
  set (N := 4 * (Rabs cl + Rabs mult)) in *.
  exists (N / (eps * Rabs (mult / cl))).
  assert (HM : 0 <= N / (eps * Rabs (mult / cl))).
  { apply Rle_mult_inv_pos; [unfold N; lra|now apply Rmult_lt_0_compat]. }
  split; [assumption|].
  intros vi Hb. rewrite Rabs_mult.
  assert (Hvi : N / (eps * Rabs (mult / cl)) < Rabs vi).
  { destruct dir; simpl in Hb.
    - rewrite (Rabs_right vi); lra.
    - rewrite (Rabs_left vi); lra. }
  apply (Rmult_lt_compat_l (eps * Rabs (mult / cl))) in Hvi;
    [|now apply Rmult_lt_0_compat].
  replace (eps * Rabs (mult / cl) * (N / (eps * Rabs (mult / cl))))
    with N in Hvi by (field; split; lra).
  lra.
Qed.

(** The sign of [mult / cl * vi] far out in the direction [dir]. *)
Lemma beyond_sign (dir : direction) (k M vi : R) :
  0 <= M -> beyond dir M vi ->
  match dir with
  | to_plus_infinity => (0 < k -> 0 < k * vi) /\ (k < 0 -> k * vi < 0)
  | to_minus_infinity => (0 < k -> k * vi < 0) /\ (k < 0 -> 0 < k * vi)
  end.
Proof.
  intros HM Hb. destruct dir; simpl in Hb; split; intros Hk; nra.
Qed.

Lemma conductance_vanishes (dir : direction) (mult cl : R) :
  mult <> 0 -> cl <> 0 -> tends_to dir mult cl OP_conductance 0.
Proof.
  intros Hm Hcl eps Heps.
  destruct (far_beyond dir mult cl eps Hm Hcl Heps) as (M & HM & Hfar).
  exists M. intros vi nl d Hb Hs.
  destruct (settled_update _ _ _ _ _ Hs) as (_ & HG).
  destruct (clamp_far mult cl eps vi Hcl Heps (Hfar vi Hb)) as (Hbeta & _).
  rewrite HG, Rminus_0_r. exact Hbeta.
Qed.

(** The current tends to [cl] where [mult / cl * vi] grows and to [- cl]
    where it falls. *)
Lemma current_saturates (dir : direction) (mult cl : R) :
  mult <> 0 -> cl <> 0 ->
  let up := match dir with
            | to_plus_infinity => 0 < mult / cl
            | to_minus_infinity => mult / cl < 0
            end in
  let down := match dir with
              | to_plus_infinity => mult / cl < 0
              | to_minus_infinity => 0 < mult / cl
              end in
  (up -> tends_to dir mult cl OP_current cl) /\
  (down -> tends_to dir mult cl OP_current (- cl)).
Proof.
  intros Hm Hcl up down. split; intros Hk eps Heps;
    destruct (far_beyond dir mult cl eps Hm Hcl Heps) as (M & HM & Hfar);
    exists M; intros vi nl d Hb Hs;
    destruct (settled_update _ _ _ _ _ Hs) as (HI & _);
    destruct (clamp_far mult cl eps vi Hcl Heps (Hfar vi Hb))
      as (_ & Hpos & Hneg);
    pose proof (beyond_sign dir (mult / cl) M vi HM Hb) as Hsign;
    rewrite HI.
  - apply Hpos. destruct dir; apply Hsign; exact Hk.
  - unfold Rminus at 1. rewrite Ropp_involutive. apply Hneg.
    destruct dir; apply Hsign; exact Hk.
Qed.

Lemma settled_LVCCS_settled (mult cl vi : R) :
  settled_at mult cl vi (input_nets vi) (settled_LVCCS mult cl vi).
Proof.
  unfold settled_at, input_voltage. simpl. repeat split; lra.
Qed.

End Clamp.

(** C7, as amended.  For fixed nonzero mult and currentLimit, with the
    formulas of [update_terminals] evaluated at the operating point
    [filteredVi = vi]: the conductance [beta] stamped on OP tends to 0 as
    [vi] goes to plus or to minus infinity; when [mult / currentLimit] is
    positive the current [I] tends to [currentLimit] at plus infinity and to
    [- currentLimit] at minus infinity, and when [mult / currentLimit] is
    negative to [- currentLimit] at plus infinity and to [currentLimit] at
    minus infinity. *)
Theorem LVCCS_saturation (mult cl : R) :
  mult <> 0%R -> cl <> 0%R ->
  (tends_to to_plus_infinity mult cl OP_conductance 0%R /\
   tends_to to_minus_infinity mult cl OP_conductance 0%R) /\
  ((0 < mult / cl)%R ->
   tends_to to_plus_infinity mult cl OP_current cl /\
   tends_to to_minus_infinity mult cl OP_current (- cl)%R) /\
  ((mult / cl < 0)%R ->
   tends_to to_plus_infinity mult cl OP_current (- cl)%R /\
   tends_to to_minus_infinity mult cl OP_current cl).
Proof.
  intros Hm Hcl.
  destruct (current_saturates to_plus_infinity mult cl Hm Hcl) as (Hpu & Hpd).
  destruct (current_saturates to_minus_infinity mult cl Hm Hcl)
    as (Hmu & Hmd).
  split; [split; apply conductance_vanishes; assumption|].
  split; intros Hk; split; auto.
Qed.

Lemma LVCCS_saturation_witness :
  tends_to to_plus_infinity 1 1 OP_current 1%R /\
  tends_to to_minus_infinity 1 1 OP_current (- 1)%R /\
  tends_to to_plus_infinity 1 1 OP_conductance 0%R /\
  tends_to to_minus_infinity 1 1 OP_conductance 0%R.
Proof.
  destruct (LVCCS_saturation 1 1 R1_neq_R0 R1_neq_R0)
    as ((Hb1 & Hb2) & Hpos & _).
  destruct (Hpos ltac:(lra)) as (H1 & H2).
  repeat split; assumption.
Defined.

(** C7, as the spec words it, fails for a negative gain: with mult = -1 and
    currentLimit = 1 the current tends to -1, not to +1, as [vi] goes to
    plus infinity. *)
Lemma saturation_negative_gain : ~ saturates_as_stated (-1) 1.
Proof.
  intros (Hup & _).
  destruct (Hup 1%R Rlt_0_1) as (M1 & HM1).
  assert (Hm : (-1 <> 0)%R) by lra.
  destruct (far_beyond to_plus_infinity (-1) 1 1 Hm R1_neq_R0 Rlt_0_1)
    as (M2 & HM2 & Hfar).
  set (v := (Rmax M1 M2 + 1)%R).
  assert (Hv1 : (M1 < v)%R) by (unfold v; pose proof (Rmax_l M1 M2); lra).
  assert (Hv2 : (M2 < v)%R) by (unfold v; pose proof (Rmax_r M1 M2); lra).
  pose proof (settled_LVCCS_settled (-1) 1 v) as Hs.
  specialize (HM1 v _ _ Hv1 Hs).
  destruct (settled_update _ _ _ _ _ Hs) as (HI & _).
  destruct (clamp_far (-1) 1 1 v R1_neq_R0 Rlt_0_1 (Hfar v Hv2))
    as (_ & _ & Hneg).
  rewrite HI in HM1.
  assert (Hx : (-1 / 1 * v < 0)%R) by lra.
  specialize (Hneg Hx).
  apply Rabs_def2 in HM1. apply Rabs_def2 in Hneg. lra.
Qed.

(** ** Damping *)

Section Damping.

Context {D : Type} {ops : NlDouble D}.

Lemma next_vi_damped (nl : netlist D) (d : LVCCS D) :
  damped_test nl d = true ->
  next_vi nl d = damped_estimate (m_vi d) (input_voltage nl (lv_VCCS d)).
Proof.
  unfold damped_test, next_vi, damped_estimate. intros ->. reflexivity.
Qed.

(** A call keeps what the test reads. *)
Lemma damped_test_update_terminals (nl : netlist D) (d : LVCCS D) :
  damped_test nl (LVCCS_update_terminals nl d) = damped_test nl d /\
  input_voltage nl (lv_VCCS (LVCCS_update_terminals nl d))
    = input_voltage nl (lv_VCCS d).
Proof.
  destruct (LVCCS_update_terminals_params nl d)
    as (HG & _ & Hgf & HIP & HIN).
  unfold damped_test, input_voltage.
  rewrite (LVCCS_update_terminals_cur_limit nl d), HG, Hgf, HIP, HIN.
  split; reflexivity.
Qed.

Lemma damped_test_iter (nl : netlist D) (d : LVCCS D) (n : nat) :
  damped_test nl (Nat.iter n (LVCCS_update_terminals nl) d)
    = damped_test nl d /\
  input_voltage nl (lv_VCCS (Nat.iter n (LVCCS_update_terminals nl) d))
    = input_voltage nl (lv_VCCS d).
Proof.
  induction n as [|n (IHt & IHv)]; [split; reflexivity|].
  rewrite Nat.iter_succ.
  destruct (damped_test_update_terminals nl
              (Nat.iter n (LVCCS_update_terminals nl) d)) as (Ht & Hv).
  rewrite Ht, Hv. split; assumption.
Qed.

Lemma damped_iter (nl : netlist D) (d : LVCCS D) (n : nat) :
  damped_test nl d = true ->
  m_vi (Nat.iter n (LVCCS_update_terminals nl) d)
    = Nat.iter n
        (fun m => damped_estimate m (input_voltage nl (lv_VCCS d)))
        (m_vi d).
Proof.
  intros Hd. induction n as [|n IH]; [reflexivity|].
  rewrite !Nat.iter_succ, <- IH.
  destruct (damped_test_iter nl d n) as (Ht & Hv).
  rewrite LVCCS_update_terminals_vi, next_vi_damped, Hv;
    [reflexivity|]. rewrite Ht. exact Hd.
Qed.

End Damping.

Section DampingExact.

Local Open Scope R_scope.

Lemma damped_estimate_between (a v : R) :
  (a < v -> a < damped_estimate a v < v) /\
  (v < a -> v < damped_estimate a v < a) /\
  damped_estimate v v = v.
Proof.
  unfold damped_estimate. simpl. split; [|split].
  - apply relax_step. lra.
  - apply relax_step_down. lra.
  - replace ((v - v) / 0.2) with 0 by lra. rewrite tanh_0. lra.
Qed.

Lemma damped_estimate_iterates (a v : R) (n : nat) :
  let s k := Nat.iter k (fun m => damped_estimate m v) a in
  (a < v -> s n < s (S n) < v) /\
  (v < a -> v < s (S n) < s n).
Proof.
  intros s. split; intros Hav.
  - assert (Hbelow : forall k, s k < v).
    { induction k as [|k IHk]; [exact Hav|].
      unfold s. rewrite Nat.iter_succ.
      apply (proj1 (damped_estimate_between _ v)). exact IHk. }
    unfold s at 2. rewrite Nat.iter_succ.
    apply (proj1 (damped_estimate_between _ v)). apply Hbelow.
  - assert (Habove : forall k, v < s k).
    { induction k as [|k IHk]; [exact Hav|].
      unfold s. rewrite Nat.iter_succ.
      apply (proj1 (proj2 (damped_estimate_between _ v))). exact IHk. }
    unfold s at 1. rewrite Nat.iter_succ.
    apply (proj1 (proj2 (damped_estimate_between _ v))). apply Habove.
Qed.

End DampingExact.

(** C6, as amended.  In the damped branch, taken when the test
    [abs (mult / currentLimit * vi) > 0.5] holds, each [update_terminals]
    call sets [filteredVi] to [filteredVi + 0.2 * tanh ((vi - filteredVi) /
    0.2)], computed in the arithmetic of [nl_double], and with the nets
    held fixed [n] calls iterate this map [n] times; this holds for every
    arithmetic.  In exact arithmetic the value of the map lies strictly
    between the old [filteredVi] and [vi] whenever they differ, and is [vi]
    when they are equal, so that its iterates approach [vi] monotonically
    and never pass it. *)
Theorem LVCCS_damped_estimate :
  (forall (D : Type) (ops : NlDouble D) (nl : netlist D) (d : LVCCS D),
     damped_test nl d = true ->
     let vi := nl_sub (Q_Analog (nl (m_net (m_IP (lv_VCCS d)))))
                      (Q_Analog (nl (m_net (m_IN (lv_VCCS d))))) in
     m_vi (LVCCS_update_terminals nl d) = damped_estimate (m_vi d) vi /\
     forall n : nat,
       m_vi (Nat.iter n (LVCCS_update_terminals nl) d)
         = Nat.iter n (fun m => damped_estimate m vi) (m_vi d)) /\
  (forall a v : R,
     ((a < v)%R -> (a < damped_estimate a v < v)%R) /\
     ((v < a)%R -> (v < damped_estimate a v < a)%R) /\
     damped_estimate v v = v) /\
  (forall (a v : R) (n : nat),
     let s k := Nat.iter k (fun m => damped_estimate m v) a in
     ((a < v)%R -> (s n < s (S n) < v)%R) /\
     ((v < a)%R -> (v < s (S n) < s n)%R)).
Proof.
  split; [|split].
  - intros D ops nl d Hd vi. split.
    + rewrite LVCCS_update_terminals_vi. now apply next_vi_damped.
    + intros n. now apply damped_iter.
  - exact damped_estimate_between.
  - exact damped_estimate_iterates.
Qed.

Lemma LVCCS_damped_estimate_witness :
  m_vi (LVCCS_update_terminals (input_nets 3) (settled_LVCCS 1 1 0))
    = damped_estimate 0%R (3 - 0)%R /\
  (0 < damped_estimate 0%R (3 - 0)%R < 3 - 0)%R.
Proof.
  destruct LVCCS_damped_estimate as (Hcode & Hexact & _).
  split.
  - apply (Hcode R real_arith (input_nets 3) (settled_LVCCS 1 1 0)).
    unfold damped_test, input_voltage. simpl.
    unfold Rgtb. destruct (Rgt_dec _ _) as [_|Hn]; [reflexivity|].
    exfalso. apply Hn. rewrite Rabs_right; lra.
  - apply (Hexact 0%R (3 - 0)%R). lra.
Defined.

(** C6, as the spec words it, fails in binary64.  With [std::tanh] as it is
    on its tails: from [filteredVi] = 1e16 and [vi] = 1e16 + 8 the damped
    branch adds 0.2, which rounding absorbs, and [filteredVi] does not move
    although it differs from [vi]; from [filteredVi] = 0 and [vi] =
    9.3132257461547855e-20 at a gain of 1e20 it sets [filteredVi] to
    9.3132257461547867e-20, past [vi]. *)
Lemma damped_step_binary64 :
  let ops := binary64 tanh_tails in
  let stuck := binary64_LVCCS 1 1 1e16 in
  let stuck_nets := binary64_nets 10000000000000008 in
  let over := binary64_LVCCS 1e20 1 0 in
  let over_nets := binary64_nets 9.3132257461547855e-20 in
  (@damped_test float ops stuck_nets stuck = true /\
   @input_voltage float ops stuck_nets (lv_VCCS stuck)
     = 10000000000000008%float /\
   m_vi (@LVCCS_update_terminals float ops stuck_nets stuck) = 1e16%float /\
   ~ moved_toward (m_vi stuck)
       (m_vi (@LVCCS_update_terminals float ops stuck_nets stuck))
       (@input_voltage float ops stuck_nets (lv_VCCS stuck))) /\
  (@damped_test float ops over_nets over = true /\
   @input_voltage float ops over_nets (lv_VCCS over)
     = 9.3132257461547855e-20%float /\
   m_vi (@LVCCS_update_terminals float ops over_nets over)
     = 9.3132257461547867e-20%float /\
   ~ moved_toward (m_vi over)
       (m_vi (@LVCCS_update_terminals float ops over_nets over))
       (@input_voltage float ops over_nets (lv_VCCS over))).
Proof.
  cbv zeta. split.
  - split; [reflexivity|]. split; [reflexivity|]. split; [reflexivity|].
    intros (Hup & _).
    assert (Hlt : PrimFloat.ltb 1e16 10000000000000008 = true)
      by reflexivity.
    destruct (Hup Hlt) as (Hmove & _). vm_compute in Hmove. discriminate.
  - split; [reflexivity|]. split; [reflexivity|]. split; [reflexivity|].
    intros (Hup & _).
    assert (Hlt : PrimFloat.ltb 0 9.3132257461547855e-20 = true)
      by reflexivity.
    destruct (Hup Hlt) as (_ & Hpast). vm_compute in Hpast. discriminate.
Qed.

(** * Further properties *)

(** ** Reset, update and the wiring *)

Section MoreStamps.

Context {D : Type} {ops : NlDouble D}.
Local Open Scope nl_scope.

(** X1. Reset is idempotent for every member of the family: a second
    [reset()] changes nothing the first has left. *)
Theorem reset_idempotent (dv : fourterm D) : reset (reset dv) = reset dv.
Proof. destruct dv; reflexivity. Qed.

(** X2. LVCCS reset puts the linear VCCS stamps back over whatever
    [update_terminals] has stamped, and it does not reset the estimate
    [m_vi]: the value [update_terminals] settled on survives the reset. *)
Theorem LVCCS_reset_after_update_terminals (nl : netlist D) (d : LVCCS D) :
  LVCCS_reset (LVCCS_update_terminals nl d)
    = with_vi (next_vi nl d) (LVCCS_reset d) /\
  m_vi (LVCCS_reset d) = m_vi d.
Proof.
  split; [|reflexivity].
  unfold LVCCS_update_terminals, next_vi, input_voltage.
  destruct (nl_gt _ _); reflexivity.
Qed.

Lemma wiring_reset (dv : fourterm D) (t : term_id) :
  wiring (reset dv) t = wiring dv t.
Proof. destruct dv, t; reflexivity. Qed.

Lemma wiring_update_terminals (nl : netlist D) (dv : fourterm D)
  (t : term_id) :
  wiring (update_terminals nl dv) t = wiring dv t.
Proof.
  destruct dv as [d|d|d|d]; try reflexivity.
  unfold update_terminals, LVCCS_update_terminals.
  destruct (nl_gt _ _); destruct t; reflexivity.
Qed.

Lemma update_rail_flags (nl nl' : netlist D) (d d' : VCCS D) :
  rail_flags nl d = rail_flags nl' d' ->
  VCCS_update nl d = VCCS_update nl' d'.
Proof.
  unfold rail_flags, VCCS_update. intros [= -> -> -> ->]. reflexivity.
Qed.

Lemma rail_flags_wiring (nl : netlist D) (dv dv' : fourterm D) :
  (forall t, wiring dv' t = wiring dv t) ->
  rail_flags nl (base dv') = rail_flags nl (base dv).
Proof.
  intros H. unfold rail_flags, net.
  pose proof (H IP) as HIP. pose proof (H IN) as HIN.
  pose proof (H OP) as HOP. pose proof (H ON) as HON.
  unfold wiring in *. simpl in *.
  injection HIP as _ -> _. injection HIN as _ -> _.
  injection HOP as _ -> _. injection HON as _ -> _. reflexivity.
Qed.

(** X3. [update()] reads nothing but the rail flags of the nets of IP, IN,
    OP and ON: a [reset()] or an [update_terminals()] before it does not
    change its calls, and two devices over two netlists with the same four
    flags make the same calls. *)
Theorem update_reads_rail_flags_only (nl : netlist D) (dv : fourterm D) :
  update nl (reset dv) = update nl dv /\
  (forall nl', update nl (update_terminals nl' dv) = update nl dv) /\
  (forall (nl' : netlist D) (dv' : fourterm D),
     rail_flags nl' (base dv') = rail_flags nl (base dv) ->
     update nl' dv' = update nl dv).
Proof.
  assert (H : forall (nl' : netlist D) (dv' : fourterm D),
             rail_flags nl' (base dv') = rail_flags nl (base dv) ->
             update nl' dv' = update nl dv).
  { intros nl' dv' Hf. rewrite !update_base. now apply update_rail_flags. }
  split; [|split].
  - apply H, rail_flags_wiring, wiring_reset.
  - intros nl'. apply H, rail_flags_wiring, wiring_update_terminals.
  - exact H.
Qed.

(** X4. [update()] makes no call exactly when the nets of IP, IN, OP and
    ON are all rail nets; a call it makes is on one of these four terminals,
    never on an auxiliary terminal, and the net of that terminal is not a
    rail net. *)
Theorem update_request_sound (nl : netlist D) (dv : fourterm D) :
  (update nl dv = [] <-> rail_flags nl (base dv) = [true; true; true; true])
  /\
  (forall t, In (schedule_solve t) (update nl dv) ->
     In t [IP; IN; OP; ON] /\
     exists tm, terminal dv t = Some tm /\ isRailNet (net nl tm) = false).
Proof.
  rewrite update_base. unfold VCCS_update, rail_flags.
  destruct (isRailNet (net nl (m_IP (base dv)))) eqn:HIP;
  destruct (isRailNet (net nl (m_IN (base dv)))) eqn:HIN;
  destruct (isRailNet (net nl (m_OP (base dv)))) eqn:HOP;
  destruct (isRailNet (net nl (m_ON (base dv)))) eqn:HON; simpl;
  (split; [split; intros; (reflexivity || discriminate)|]);
  intros t Ht; try contradiction;
  destruct Ht as [[= <-]|[]]; (split; [simpl; tauto|]);
  eexists; (split; [reflexivity|assumption]).
Qed.

(** X5. In the linear region, where the test
    [abs (mult / currentLimit * vi) > 0.5] fails, [update_terminals] sets the
    estimate to [vi] and is idempotent: a second call over the same nets
    leaves the device as the first did.  This holds for every arithmetic. *)
Theorem LVCCS_linear_region (nl : netlist D) (d : LVCCS D) :
  let mult := m_G (lv_VCCS d) * m_gfac (lv_VCCS d) in
  let vi := input_voltage nl (lv_VCCS d) in
  (nl_abs (mult / m_cur_limit d * vi) >? nl_0_5) = false ->
  m_vi (LVCCS_update_terminals nl d) = vi /\
  LVCCS_update_terminals nl (LVCCS_update_terminals nl d)
    = LVCCS_update_terminals nl d.
Proof.
  intros mult vi Hlin. subst mult vi.
  unfold LVCCS_update_terminals, input_voltage in *. simpl.
  rewrite Hlin. simpl. rewrite Hlin. split; reflexivity.
Qed.

(** X13. VCVS reset does not depend on the gain factor the device held:
    it takes the gain factor from RO each time, whereas the VCCS reset on
    the same object keeps the gain factor it finds. *)
Theorem VCVS_reset_sets_gain_factor (d : VCVS D) (g : D) :
  VCVS_reset (vv_on_VCCS (with_gfac g) d) = VCVS_reset d /\
  m_gfac (VCCS_reset (vv_on_VCCS (with_gfac g) d).(vv_VCCS)) = g.
Proof. repeat split. Qed.

(** X14. No [reset()] rewires a device or changes a parameter other than
    the gain factor of a VCVS: name, net and opposite terminal of every
    terminal, G and RI are kept, as are the gain factor of VCCS, LVCCS and
    CCCS, the current limit and the estimate of an LVCCS and the RO of a
    VCVS. *)
Theorem reset_frame (dv : fourterm D) :
  (forall t, wiring (reset dv) t = wiring dv t) /\
  m_G (base (reset dv)) = m_G (base dv) /\
  m_RI (base (reset dv)) = m_RI (base dv) /\
  match dv, reset dv with
  | dev_VCCS d, dev_VCCS d' => m_gfac d' = m_gfac d
  | dev_LVCCS d, dev_LVCCS d' =>
      m_gfac (lv_VCCS d') = m_gfac (lv_VCCS d) /\
      m_cur_limit d' = m_cur_limit d /\ m_vi d' = m_vi d
  | dev_CCCS d, dev_CCCS d' => m_gfac (cc_VCCS d') = m_gfac (cc_VCCS d)
  | dev_VCVS d, dev_VCVS d' =>
      m_RO d' = m_RO d /\ m_gfac (vv_VCCS d') = nl_1_0 / m_RO d
  | _, _ => False
  end.
Proof.
  split; [apply wiring_reset|]. destruct dv; repeat split.
Qed.

End MoreStamps.

Lemma update_reads_rail_flags_only_witness :
  update (nets_of (Nat.eqb 0) (fun _ => 1%R))
         (dev_VCCS (fresh_VCCS 2%R 5%R 1%R))
  = update (nets_of (Nat.eqb 0) (fun _ => 0%R))
           (dev_VCCS (fresh_VCCS 1%R 1e9%R 1%R)).
Proof.
  apply (proj2 (proj2 (update_reads_rail_flags_only
           (nets_of (Nat.eqb 0) (fun _ => 0%R))
           (dev_VCCS (fresh_VCCS 1%R 1e9%R 1%R))))).
  reflexivity.
Defined.

Lemma update_request_sound_witness :
  exists tm : terminal_t R,
    terminal (dev_VCCS (fresh_VCCS 1%R 1e9%R 1%R)) IN = Some tm /\
    isRailNet (net (nets_of (Nat.eqb 0) (fun _ => 0%R)) tm) = false.
Proof.
  apply (proj2 (update_request_sound
           (nets_of (Nat.eqb 0) (fun _ => 0%R))
           (dev_VCCS (fresh_VCCS 1%R 1e9%R 1%R))) IN).
  left. reflexivity.
Defined.

(** ** The two halves of [update_terminals] *)

Section Split.
Context {D : Type} {ops : NlDouble D}.

Lemma update_terminals_stamp_clamp (nl : netlist D) (d : LVCCS D) :
  LVCCS_update_terminals nl d = stamp_clamp (next_vi nl d) d.
Proof.
  unfold LVCCS_update_terminals, stamp_clamp, next_vi, input_voltage.
  destruct (nl_gt _ _); reflexivity.
Qed.

Lemma stamp_clamp_twice (v v' : D) (d : LVCCS D) :
  stamp_clamp v' (stamp_clamp v d) = stamp_clamp v' d.
Proof. reflexivity. Qed.

End Split.

Section Comparison.

Local Open Scope R_scope.

Lemma Rgtb_false (x y : R) : Rgtb x y = false <-> x <= y.
Proof.
  unfold Rgtb. destruct (Rgt_dec x y); split; intros; try easy; lra.
Qed.

End Comparison.

Lemma LVCCS_linear_region_witness :
  m_vi (LVCCS_update_terminals (input_nets 0.25) (settled_LVCCS 1 1 7))
  = input_voltage (input_nets 0.25) (lv_VCCS (settled_LVCCS 1 1 7)).
Proof.
  apply (LVCCS_linear_region (input_nets 0.25) (settled_LVCCS 1 1 7)).
  apply Rgtb_false. unfold input_voltage. simpl.
  rewrite Rabs_right; lra.
Defined.

(** ** More on the hyperbolic tangent *)

Section TanhMore.
Local Open Scope R_scope.



Lemma derivable_pt_lim_tanh (x : R) :
  derivable_pt_lim tanh x (1 - tanh x * tanh x).
Proof.
  pose proof (cosh_gt_0 x) as Hc.
  replace (1 - tanh x * tanh x)
    with ((cosh x * cosh x - sinh x * sinh x) / (cosh x)²)
    by (unfold tanh, Rsqr; field; lra).
  change tanh with (sinh / cosh)%F.
  apply derivable_pt_lim_div;
    [apply derivable_pt_lim_sinh|apply derivable_pt_lim_cosh|lra].
Qed.

Lemma clamp_curve_tangent (mult cl v : R) :
  cl <> 0 ->
  let X := tanh (mult / cl * v) in
  derivable_pt_lim (clamp_curve mult cl) v (mult * (1 - X * X)).
Proof.
  intros Hcl X.
  replace (mult * (1 - X * X)) with (cl * ((1 - X * X) * (mult / cl * 1)))
    by (field; assumption).
  change (clamp_curve mult cl)
    with (mult_real_fct cl (comp tanh (mult_real_fct (mult / cl) id))).
  apply derivable_pt_lim_scal.
  apply derivable_pt_lim_comp.
  - apply derivable_pt_lim_scal, derivable_pt_lim_id.
  - apply derivable_pt_lim_tanh.
Qed.

End TanhMore.

(** ** The stamp as a linearisation *)

Section ClampMore.
Local Open Scope R_scope.

(** The stamp on OP after any call, from the estimate the call left. *)
Lemma update_terminals_OP (nl : netlist R) (d : LVCCS R) :
  let d' := LVCCS_update_terminals nl d in
  let mult := m_G (lv_VCCS d) * m_gfac (lv_VCCS d) in
  let X := tanh (mult / m_cur_limit d * m_vi d') in
  OP_conductance d' = mult * (1 - X * X) /\
  OP_current d' = m_cur_limit d * X - mult * (1 - X * X) * m_vi d'.
Proof.
  intros d' mult X. subst d' mult X.
  rewrite LVCCS_update_terminals_vi.
  destruct (LVCCS_update_terminals_out nl d) as (HOP & _).
  unfold OP_conductance, OP_current. rewrite HOP. split; reflexivity.
Qed.

End ClampMore.





(** X11. Over the reals, with a nonzero current limit, the stamp on OP is
    the tangent of the clamp curve [v |-> currentLimit * tanh (mult /
    currentLimit * v)] at the estimate: the line [beta * v + I] meets the
    curve there, and [beta] is the derivative of the curve there. *)
Theorem LVCCS_stamp_is_tangent (nl : netlist R) (d : LVCCS R) :
  m_cur_limit d <> 0%R ->
  let d' := LVCCS_update_terminals nl d in
  let curve := clamp_curve (m_G (lv_VCCS d) * m_gfac (lv_VCCS d))%R
                           (m_cur_limit d) in
  OP_line d' (m_vi d') = curve (m_vi d') /\
  derivable_pt_lim curve (m_vi d') (OP_conductance d').
Proof.
  intros Hcl d' curve.
  destruct (update_terminals_OP nl d) as (HG & HI). fold d' in HG, HI.
  split.
  - unfold OP_line, curve, clamp_curve. rewrite HG, HI. ring.
  - rewrite HG. apply clamp_curve_tangent. exact Hcl.
Qed.

Lemma LVCCS_stamp_is_tangent_witness :
  let d' := LVCCS_update_terminals (input_nets 3) (settled_LVCCS 2 1 0) in
  OP_line d' (m_vi d') = clamp_curve (2 * 1) 1 (m_vi d').
Proof.
  apply (LVCCS_stamp_is_tangent (input_nets 3) (settled_LVCCS 2 1 0)).
  exact R1_neq_R0.
Defined.

(** ** Zero input, fixed points and symmetry *)



(** X12. After one [update_terminals] call, a further call over the same
    nets changes the device exactly when it changes the estimate [m_vi]:
    the stamps are a function of the estimate and of parameters no call
    changes.  This holds for every arithmetic. *)
Theorem LVCCS_update_terminals_fixed_point (D : Type) (ops : NlDouble D)
  (nl : netlist D) (d : LVCCS D) :
  let d' := LVCCS_update_terminals nl d in
  LVCCS_update_terminals nl d' = d' <->
  m_vi (LVCCS_update_terminals nl d') = m_vi d'.
Proof.
  intros d'. split; [intros ->; reflexivity|].
  assert (Hd' : d' = stamp_clamp (m_vi d') d).
  { unfold d'. rewrite LVCCS_update_terminals_vi.
    apply update_terminals_stamp_clamp. }
  assert (Hd'' : LVCCS_update_terminals nl d' = stamp_clamp (next_vi nl d') d).
  { rewrite update_terminals_stamp_clamp.
    transitivity (stamp_clamp (next_vi nl d') (stamp_clamp (m_vi d') d));
      [f_equal; exact Hd'|apply stamp_clamp_twice]. }
  clearbody d'. rewrite LVCCS_update_terminals_vi. intros Hvi.
  rewrite Hd'', Hvi. symmetry. exact Hd'.
Qed.

Lemma LVCCS_update_terminals_fixed_point_witness :
  let ops := binary64 tanh_tails in
  let stuck := binary64_LVCCS 1 1 1e16 in
  let stuck_nets := binary64_nets 10000000000000008 in
  let d' := @LVCCS_update_terminals float ops stuck_nets stuck in
  @LVCCS_update_terminals float ops stuck_nets d' = d'.
Proof.
  cbv zeta.
  apply (proj2 (LVCCS_update_terminals_fixed_point float
                  (binary64 tanh_tails)
                  (binary64_nets 10000000000000008)
                  (binary64_LVCCS 1 1 1e16))).
  reflexivity.
Defined.

(** X15. Over the reals the clamp is odd: for two LVCCS with the same
    multiplier and current limit, opposite input voltages and opposite
    estimates, [update_terminals] leaves opposite estimates, the same
    conductance on OP and opposite currents on OP. *)
Theorem LVCCS_odd_symmetry (nl1 nl2 : netlist R) (d1 d2 : LVCCS R) :
  (m_G (lv_VCCS d2) * m_gfac (lv_VCCS d2))%R
    = (m_G (lv_VCCS d1) * m_gfac (lv_VCCS d1))%R ->
  m_cur_limit d2 = m_cur_limit d1 ->
  input_voltage nl2 (lv_VCCS d2) = (- input_voltage nl1 (lv_VCCS d1))%R ->
  m_vi d2 = (- m_vi d1)%R ->
  let d1' := LVCCS_update_terminals nl1 d1 in
  let d2' := LVCCS_update_terminals nl2 d2 in
  m_vi d2' = (- m_vi d1')%R /\
  OP_conductance d2' = OP_conductance d1' /\
  OP_current d2' = (- OP_current d1')%R.
Proof.
  intros Hmult Hcl Hin Hvi d1' d2'.
  assert (Hv : m_vi d2' = (- m_vi d1')%R).
  { unfold d1', d2'. rewrite !LVCCS_update_terminals_vi. unfold next_vi.
    rewrite Hin, Hvi, Hcl.
    cbn [nl_mul nl_div nl_sub nl_add nl_abs nl_gt nl_tanh nl_0_5 nl_0_2
         real_arith].
    rewrite Hmult.
    set (k := (m_G (lv_VCCS d1) * m_gfac (lv_VCCS d1) / m_cur_limit d1)%R).
    set (v := input_voltage nl1 (lv_VCCS d1)). set (m := m_vi d1).
    replace (Rabs (k * - v))%R with (Rabs (k * v))%R
      by (rewrite Ropp_mult_distr_r_reverse, Rabs_Ropp; reflexivity).
    destruct (Rgtb (Rabs (k * v)) 0.5); [|reflexivity].
    replace ((- v - - m) / 0.2)%R with (- ((v - m) / 0.2))%R by lra.
    rewrite tanh_opp. lra. }
  destruct (update_terminals_OP nl1 d1) as (HG1 & HI1).
  destruct (update_terminals_OP nl2 d2) as (HG2 & HI2).
  fold d1' in HG1, HI1. fold d2' in HG2, HI2.
  rewrite Hmult, Hcl, Hv in HG2, HI2.
  rewrite Ropp_mult_distr_r_reverse, tanh_opp in HG2, HI2.
  split; [exact Hv|]. rewrite HG1, HG2, HI1, HI2. split; ring.
Qed.

Lemma LVCCS_odd_symmetry_witness :
  m_vi (LVCCS_update_terminals (input_nets (-3)) (settled_LVCCS 2 1 (-1)))
  = (- m_vi (LVCCS_update_terminals (input_nets 3) (settled_LVCCS 2 1 1)))%R.
Proof.
  apply (LVCCS_odd_symmetry (input_nets 3) (input_nets (-3))
           (settled_LVCCS 2 1 1) (settled_LVCCS 2 1 (-1)));
    unfold input_voltage; simpl; lra.
Defined.
